(** * correct_sales.py: gap filling and anomaly correction of a daily sales series

    A shallow embedding of [load_data] and [process_sales_data] of
    [src/correct_sales.py].

    Modelling conventions.
    - A DataFrame is a list of rows, in the frame's positional order; a cell
      that pandas holds as NaN is [None].
    - A date is the number of its day (an integer), so that consecutive
      calendar days differ by one; the parsing of [MM/DD/YYYY] text belongs to
      the CSV reader and is not modelled.
    - Cumulative totals are integers, and every line of the file has one:
      an empty ["Total Sales"] cell, which [read_csv] reads as NaN, is not a
      line of the loaded frame of this development.  The frames of the gap
      filler ([Full.row]) can hold such a day: it is a row whose total is
      [None], with the delta and the note that lines 24-26 gave it.
    - Where the source computes in float64 (the difference of line 24, the
      totals once [reindex] has put NaN into the column, the division
      before [round], the interpolation) the model computes in exact
      integers and rationals.  The two give the same totals and deltas as
      long as the totals stay far below 2^52 in magnitude; the statements
      on the totals and deltas of a whole run take a bound of 2^52 or 2^53
      as a hypothesis.  Inside a run of flagged days the float64 line of
      [np.interp] may round to the other neighbour of a half integer than
      the exact line of [interpolate_cell]: the statements on the corrector
      use the ends of the column and the hull of the two neighbours only.
    - [round] (Python) and [Series.round] (NumPy) round halves to the even
      neighbour.
    - pandas calls follow the behaviour of pandas 2: [reindex] raises on
      duplicate labels, writing NaN into an integer column turns it into a
      float column, and [interpolate(method="linear")] fills forward (see
      [interpolate_linear]).
    - [IsolationForest] is not part of the repository: it is a parameter of
      the development.  It receives its constructor arguments
      ([contamination], [random_state]), the ambient state of the global
      random generator that an unseeded forest would draw from, and the
      feature matrix, and returns one label per row position.
    - An exception raised by the program is [None].

    The file has four parts: the embedding, the lemmas on each stage, the
    statements C1 to C10 about the program, and further properties of
    [load_data], [process_sales_data] and [main]. *)

From Stdlib Require Import ZArith QArith Qround Lia.
From stdpp Require Import base tactics option list numbers sorting strings.

Inductive note := Delta | Assumed.

#[global] Instance note_eq_dec : EqDecision note.
Proof. solve_decision. Defined.

(** The [contamination] argument as [main] hands it over: the string
    ["auto"] or a float. *)
Inductive contamination := auto_mode | fraction (q : Q).

(** ** Frames *)

(** A line of the CSV file, columns ["Total Sales"] and ["Date"]; the total
    is an integer, a line with an empty cell is not modelled. *)
Module Raw.
Record row := { Total_Sales : Z; Date : Z }.
End Raw.

(** The frame [load_data] returns: [index] is the row label, which
    [read_csv] sets to the position of the line in the file and which
    neither [drop_duplicates] nor [sort_values] renumbers. *)
Module Loaded.
Record row := { index : nat; Total_Sales : Z; Date : Z }.
End Loaded.

(** [df] after lines 24-26 added ["Daily_Sales"] and ["Notes"]. *)
Module Df.
Record row :=
  { index : nat; Total_Sales : Z; Date : Z; Daily_Sales : Z; Notes : note }.
End Df.

(** [df_full]: one row per calendar day, NaN cells on the days [reindex]
    created. *)
Module Full.
Record row :=
  { Date : Z;
    Total_Sales : option Z;
    Daily_Sales : option Z;
    Notes : option note }.
End Full.

(** [df_final] from line 57 on: ["Daily_Sales"] is an integer column and
    ["Notes"] has no NaN left. *)
Module Final.
Record row :=
  { Date : Z; Total_Sales : option Z; Daily_Sales : Z; Notes : note }.
End Final.

(** A row of [features] (line 62). *)
Module Feature.
Record row := { Daily_Sales : Z; Lag1 : Z; Rolling_Mean : Q }.
End Feature.

(** ** pandas and Python primitives *)

Definition isna {A} (o : option A) : bool :=
  match o with None => true | Some _ => false end.

Definition fillna {A} (v : A) (col : list (option A)) : list A :=
  default v <$> col.

(** Python's [round(x)] and NumPy's [round]: nearest integer, halves to the
    even one. *)
Definition round_half_even (q : Q) : Z :=
  let f := Qfloor q in
  match Qcompare (q - inject_Z f) (1 # 2) with
  | Lt => f
  | Gt => (f + 1)%Z
  | Eq => if Z.even f then f else (f + 1)%Z
  end.

(** [Series.diff()]: NaN on the first row, then the difference with the row
    before. *)
Fixpoint diff_from (prev : Z) (col : list Z) : list (option Z) :=
  match col with
  | [] => []
  | x :: col' => Some (x - prev)%Z :: diff_from x col'
  end.

Definition diff (col : list Z) : list (option Z) :=
  match col with
  | [] => []
  | x :: col' => None :: diff_from x col'
  end.

(** [Series.min()] and [Series.max()] of a date column; [None] is NaT, the
    answer on an empty column. *)
Definition Series_min (col : list Z) : option Z :=
  match col with
  | [] => None
  | d :: col' => Some (foldl Z.min d col')
  end.

Definition Series_max (col : list Z) : option Z :=
  match col with
  | [] => None
  | d :: col' => Some (foldl Z.max d col')
  end.

(** [pd.date_range(start, end, freq="D")]: every day from [start] to [end],
    both included. *)
Definition date_range (start stop : Z) : list Z :=
  (λ k : nat, (start + Z.of_nat k)%Z) <$> seq 0 (Z.to_nat (stop - start + 1)).

(** ** load_data (line 15) *)

Definition read_csv (raw : list Raw.row) : list Loaded.row :=
  imap (λ i r, {| Loaded.index := i;
                  Loaded.Total_Sales := Raw.Total_Sales r;
                  Loaded.Date := Raw.Date r |}) raw.

(** [drop_duplicates(subset="Date", keep="first")]. *)
Fixpoint drop_duplicates_from (seen : list Z) (df : list Loaded.row)
  : list Loaded.row :=
  match df with
  | [] => []
  | r :: df' =>
      if bool_decide (Loaded.Date r ∈ seen) then drop_duplicates_from seen df'
      else r :: drop_duplicates_from (Loaded.Date r :: seen) df'
  end.

Definition drop_duplicates (df : list Loaded.row) : list Loaded.row :=
  drop_duplicates_from [] df.

Definition Date_le (a b : Loaded.row) : Prop :=
  (Loaded.Date a ≤ Loaded.Date b)%Z.

#[global] Instance Date_le_dec a b : Decision (Date_le a b).
Proof. unfold Date_le. apply _. Defined.

(** [sort_values("Date")]: the dates are distinct at this point, so every
    sorting algorithm gives the same frame. *)
Definition sort_values (df : list Loaded.row) : list Loaded.row :=
  merge_sort Date_le df.

Definition load_data (raw : list Raw.row) : list Loaded.row :=
  sort_values (drop_duplicates (read_csv raw)).

(** ** process_sales_data, lines 24-31: deltas, notes, calendar *)

(** Lines 24-26.  The note is ["Assumed"] on the rows whose LABEL is 0
    ([df.index == 0]), ["Delta"] elsewhere.  The source holds the
    differences in a float64 column, which line 56 converts back with
    [astype(int)]: they are the integer differences written here as long as
    the totals are at most 2^52 in magnitude. *)
Definition add_daily_sales (df : list Loaded.row) : list Df.row :=
  zip_with
    (λ r d, {| Df.index := Loaded.index r;
               Df.Total_Sales := Loaded.Total_Sales r;
               Df.Date := Loaded.Date r;
               Df.Daily_Sales := d;
               Df.Notes := if bool_decide (Loaded.index r = 0) then Assumed
                           else Delta |})
    df (fillna 0%Z (diff (Loaded.Total_Sales <$> df))).

Definition nan_row (d : Z) : Full.row :=
  {| Full.Date := d; Full.Total_Sales := None;
     Full.Daily_Sales := None; Full.Notes := None |}.

(** The row that [reindex] keeps for a date of the file.  Its total is
    that of the line; the float64 column that [reindex] makes of the totals
    when the calendar has a day more than the file holds it exactly up to
    2^53 in magnitude. *)
Definition observed_row (r : Df.row) : Full.row :=
  {| Full.Date := Df.Date r;
     Full.Total_Sales := Some (Df.Total_Sales r);
     Full.Daily_Sales := Some (Df.Daily_Sales r);
     Full.Notes := Some (Df.Notes r) |}.

Definition row_of_date (df : list Df.row) (d : Z) : Full.row :=
  match find (λ r, bool_decide (Df.Date r = d)) df with
  | Some r => observed_row r
  | None => nan_row d
  end.

(** Lines 30-31, [df.set_index("Date").reindex(full_dates).reset_index()].
    pandas refuses to reindex an axis with duplicate labels: [None]. *)
Definition reindex (df : list Df.row) (full_dates : list Z)
  : option (list Full.row) :=
  if decide (NoDup (Df.Date <$> df)) then Some (row_of_date df <$> full_dates)
  else None.

(** Lines 29-31.  On an empty frame the minimum is NaT and [date_range]
    raises: [None]. *)
Definition full_calendar (df : list Df.row) : option (list Full.row) :=
  start ← Series_min (Df.Date <$> df);
  stop ← Series_max (Df.Date <$> df);
  reindex df (date_range start stop).

(** ** process_sales_data, lines 34-57: the gap filler *)

(** [df_final.loc[i, "Total Sales"]] for a position [i] of the frame; NaN is
    [None].  The loops never read outside the frame. *)
Definition Total_Sales_at (t : list Full.row) (i : nat) : option Z :=
  t !! i ≫= Full.Total_Sales.

(** Lines 37-39: the value of [start_idx] when the first [while] loop ends,
    entered with [start_idx = k]; [None] stands for -1. *)
Fixpoint scan_start (t : list Full.row) (k : nat) : option nat :=
  match k with
  | 0 => if isna (Total_Sales_at t 0) then None else Some 0
  | S k' => if isna (Total_Sales_at t k) then scan_start t k' else Some k
  end.

(** Lines 42-44: the value of [end_idx] when the second [while] loop ends,
    entered with [end_idx = e].  Each turn adds one to [end_idx] and the
    loop stops at [len(df_final)], so [length t] turns are always enough. *)
Fixpoint scan_end (t : list Full.row) (fuel e : nat) : nat :=
  match fuel with
  | 0 => e
  | S fuel' =>
      if bool_decide (e < length t) && isna (Total_Sales_at t e)
      then scan_end t fuel' (S e)
      else e
  end.

Definition set_assumed (avg_delta : Z) (r : Full.row) : Full.row :=
  {| Full.Date := Full.Date r;
     Full.Total_Sales := Full.Total_Sales r;
     Full.Daily_Sales := Some avg_delta;
     Full.Notes := Some Assumed |}.

(** Lines 52-54: [for j in range(start_idx + 1, end_idx + 1)]. *)
Definition fill_range (t : list Full.row) (avg_delta : Z) (start_idx end_idx : nat)
  : list Full.row :=
  foldl (λ t j, alter (set_assumed avg_delta) j t) t
        (seq (S start_idx) (end_idx - start_idx)).

(** Line 51. *)
Definition avg_delta (start_value end_value : Z) (gap_size : nat) : Z :=
  round_half_even
    (inject_Z (end_value - start_value) / inject_Z (Z.of_nat gap_size)).

(** Lines 36-54: the body of the outer loop at index [i]. *)
Definition fill_step (t : list Full.row) (i : nat) : list Full.row :=
  if isna (Total_Sales_at t i) || bool_decide (i = length t - 1) then
    let start_idx := default 0 (scan_start t (i - 1)) in
    let end_idx := scan_end t (length t) i in
    if bool_decide (end_idx < length t) then
      match Total_Sales_at t start_idx, Total_Sales_at t end_idx with
      | Some start_value, Some end_value =>
          fill_range t
            (avg_delta start_value end_value (end_idx - start_idx))
            start_idx end_idx
      | _, _ => t
      end
    else t
  else t.

(** Lines 35-54: [for i in range(1, len(df_final))]. *)
Definition fill_loop (t : list Full.row) : list Full.row :=
  foldl fill_step t (seq 1 (length t - 1)).

(** Lines 56-57. *)
Definition finalize (r : Full.row) : Final.row :=
  {| Final.Date := Full.Date r;
     Final.Total_Sales := Full.Total_Sales r;
     Final.Daily_Sales := default 0%Z (Full.Daily_Sales r);
     Final.Notes := default Assumed (Full.Notes r) |}.

(** Lines 34-57: the gap filler, from [df_full] to the gap-free
    [df_final]. *)
Definition fill_gaps (df_full : list Full.row) : list Final.row :=
  finalize <$> fill_loop df_full.

(** ** process_sales_data, lines 59-62: the features *)

(** [Series.shift(1)]. *)
Definition shift1 {A} (col : list A) : list (option A) :=
  take (length col) (None :: (Some <$> col)).

Definition mean (w : list Z) : Q :=
  inject_Z (foldr Z.add 0%Z w) / inject_Z (Z.of_nat (length w)).

(** [rolling(window=3, min_periods=1).mean()]: the mean of the row and of
    the (at most two) rows before it. *)
Definition rolling_mean3 (col : list Z) : list (option Q) :=
  imap (λ i _, Some (mean (drop (i - 2) (take (S i) col)))) col.

Definition features (df_final : list Final.row) : list Feature.row :=
  let daily := Final.Daily_Sales <$> df_final in
  zip_with (λ d lr, {| Feature.Daily_Sales := d;
                       Feature.Lag1 := lr.1;
                       Feature.Rolling_Mean := lr.2 |})
    daily (zip (fillna 0%Z (shift1 daily)) (fillna 0%Q (rolling_mean3 daily))).

(** ** process_sales_data, lines 77-81: the anomaly corrector *)

(** Line 78, [df_final.loc[anomalies, "Daily_Sales"] = np.nan].  The mask
    has one flag per row in the program; a position without a flag counts
    as not flagged. *)
Definition mask_nan (anomalies : list bool) (col : list Z) : list (option Z) :=
  imap (λ i d, if default false (anomalies !! i) then None else Some d) col.

(** The nearest valid cell before position [i], with its position. *)
Fixpoint last_valid (col : list (option Z)) (i : nat) : option (nat * Z) :=
  match i with
  | 0 => None
  | S k =>
      match col !! k with
      | Some (Some y) => Some (k, y)
      | _ => last_valid col k
      end
  end.

(** The first valid cell of [col], whose head has position [j]. *)
Fixpoint first_valid_from (j : nat) (col : list (option Z)) : option (nat * Z) :=
  match col with
  | [] => None
  | Some y :: _ => Some (j, y)
  | None :: col' => first_valid_from (S j) col'
  end.

(** [Series.interpolate(method="linear")] with pandas' defaults
    ([limit_direction="forward"], no [limit], no [limit_area]): a NaN between
    two valid cells lies on the straight line through them; NaNs after the
    last valid cell take its value; NaNs before the first valid cell stay
    NaN.  [np.interp] evaluates the line as [slope * (x - x0) + y0] in
    float64, the model in exact rationals: between two valid cells the two
    values agree up to the rounding error of float64, so that their
    roundings can differ by one next to a half integer. *)
Definition interpolate_cell (col : list (option Z)) (i : nat) (c : option Z)
  : option Q :=
  match c with
  | Some y => Some (inject_Z y)
  | None =>
      match last_valid col i with
      | None => None
      | Some (x0, y0) =>
          match first_valid_from (S i) (drop (S i) col) with
          | None => Some (inject_Z y0)
          | Some (x1, y1) =>
              Some (inject_Z (y1 - y0) / inject_Z (Z.of_nat x1 - Z.of_nat x0)
                    * inject_Z (Z.of_nat i - Z.of_nat x0) + inject_Z y0)%Q
          end
      end
  end.

Definition interpolate_linear (col : list (option Z)) : list (option Q) :=
  imap (interpolate_cell col) col.

(** Lines 78-80: the corrected ["Daily_Sales"] column. *)
Definition corrected_daily (anomalies : list bool) (daily : list Z) : list Z :=
  round_half_even <$> fillna 0%Q (interpolate_linear (mask_nan anomalies daily)).

Definition set_Daily_Sales (r : Final.row) (d : Z) : Final.row :=
  {| Final.Date := Final.Date r;
     Final.Total_Sales := Final.Total_Sales r;
     Final.Daily_Sales := d;
     Final.Notes := Final.Notes r |}.

Definition set_Notes (n : note) (r : Final.row) : Final.row :=
  {| Final.Date := Final.Date r;
     Final.Total_Sales := Final.Total_Sales r;
     Final.Daily_Sales := Final.Daily_Sales r;
     Final.Notes := n |}.

(** Lines 78-81: the corrector, on the gap-free frame and the flags. *)
Definition correct (df_final : list Final.row) (anomalies : list bool)
  : list Final.row :=
  let df_final :=
    zip_with set_Daily_Sales df_final
      (corrected_daily anomalies (Final.Daily_Sales <$> df_final)) in
  imap (λ i r, if default false (anomalies !! i) then set_Notes Assumed r else r)
    df_final.

(** ** process_sales_data, whole *)

(** What [process_sales_data] returns: the frame [df_final], whose columns
    ["Lag1"], ["Rolling_Mean"] and ["Anomaly_Score"] are kept beside the
    rows, and [original_anomalies]. *)
Record output :=
  { df_final : list Final.row;
    Lag1 : list Z;
    Rolling_Mean : list Q;
    Anomaly_Score : list Z;
    original_anomalies : list (Z * Z) }.

Section process_sales_data.
(** The state of NumPy's global generator, and the forest:
    [IsolationForest(contamination=c, random_state=s).fit_predict(X)] run
    in ambient state [g] labels row [i] with
    [IsolationForest_fit_predict c s g X i], 1 or -1. *)
Context {rng : Type}.
Variable IsolationForest_fit_predict :
  contamination → option Z → rng → list Feature.row → nat → Z.

(** Lines 24-57: the frame before detection. *)
Definition gap_filled (df : list Loaded.row) : option (list Final.row) :=
  fill_gaps <$> full_calendar (add_daily_sales df).

(** Lines 65-66: the forest is built with [random_state=42]. *)
Definition anomaly_scores (c : contamination) (g : rng)
    (df_final : list Final.row) : list Z :=
  let X := features df_final in
  IsolationForest_fit_predict c (Some 42%Z) g X <$> seq 0 (length X).

(** Line 67. *)
Definition iso_anomalies (c : contamination) (g : rng)
    (df_final : list Final.row) : list bool :=
  (λ s, bool_decide (s = (-1)%Z)) <$> anomaly_scores c g df_final.

(** Line 70. *)
Definition negatives (df_final : list Final.row) : list bool :=
  (λ r, bool_decide (Final.Daily_Sales r < 0)%Z) <$> df_final.

(** Line 71. *)
Definition anomalies (c : contamination) (g : rng)
    (df_final : list Final.row) : list bool :=
  zip_with orb (iso_anomalies c g df_final) (negatives df_final).

(** Lines 74-75: the rows of [df] whose date is flagged. *)
Definition select_original_anomalies (df : list Df.row)
    (df_final : list Final.row) (flags : list bool) : list (Z * Z) :=
  let anomaly_dates :=
    omap (λ rf : Final.row * bool, if rf.2 then Some (Final.Date rf.1) else None)
         (zip df_final flags) in
  (λ r, (Df.Date r, Df.Daily_Sales r))
    <$> filter (λ r, Df.Date r ∈ anomaly_dates) df.

Definition process_sales_data (df : list Loaded.row) (c : contamination)
    (g : rng) : option output :=
  filled ← gap_filled df;
  let X := features filled in
  let flags := anomalies c g filled in
  Some {| df_final := correct filled flags;
          Lag1 := Feature.Lag1 <$> X;
          Rolling_Mean := Feature.Rolling_Mean <$> X;
          Anomaly_Score := anomaly_scores c g filled;
          original_anomalies :=
            select_original_anomalies (add_daily_sales df) filled flags |}.

(** [main], lines 139-140, on the lines of the file. *)
Definition run (raw : list Raw.row) (c : contamination) (g : rng)
  : option output :=
  process_sales_data (load_data raw) c g.
End process_sales_data.


(** ** load_data, lines 10-19: the checks *)

Section load_data_or_exit.
(** [pd.to_datetime(cell, format="%m/%d/%Y")] on one cell of the ["Date"]
    column: the day, or [None] when the text does not fit the format. *)
Variable to_datetime : string → option Z.

(** Line 14 on the whole column: one cell that does not parse raises. *)
Definition parse_dates (cells : list (Z * string)) : option (list Raw.row) :=
  mapM (λ cell, d ← to_datetime cell.2;
                Some {| Raw.Total_Sales := cell.1; Raw.Date := d |}) cells.

(** Lines 10-19, on the header of the file and its cells (every line has a
    total and a date text).  [None] is [sys.exit(1)]. *)
Definition load_data_or_exit (columns : list string) (cells : list (Z * string))
  : option (list Loaded.row) :=
  if decide (columns = ["Total Sales"; "Date"]%string)
  then load_data <$> parse_dates cells
  else None.
End load_data_or_exit.

(** ** process_sales_data, lines 83-86: the printed counts *)

(** [mask.sum()] of a boolean Series. *)
Definition Series_sum (mask : list bool) : nat :=
  length (filter (λ b, b = true) mask).

Record printed :=
  { Isolation_Forest_anomalies : nat;
    Negative_anomalies : nat;
    Total_anomalies_corrected : nat;
    Negatives_remaining : nat }.

Definition printed_counts {rng}
    (IsolationForest_fit_predict :
       contamination → option Z → rng → list Feature.row → nat → Z)
    (df : list Loaded.row) (c : contamination) (g : rng) : option printed :=
  filled ← gap_filled df;
  let flags := anomalies IsolationForest_fit_predict c g filled in
  Some {| Isolation_Forest_anomalies :=
            Series_sum (iso_anomalies IsolationForest_fit_predict c g filled);
          Negative_anomalies := Series_sum (negatives filled);
          Total_anomalies_corrected := Series_sum flags;
          Negatives_remaining := Series_sum (negatives (correct filled flags)) |}.

(** ** main, lines 112-141 *)

(** A Python float. *)
Inductive pyfloat := finite (q : Q) | pos_inf | neg_inf | nan.

(** The doubles that the literals [0.01] and [0.5] denote. *)
Definition float_0_01 : Q := 5764607523034235 # 576460752303423488.
Definition float_0_5 : Q := 1 # 2.

(** Line 127, [0.01 <= contamination <= 0.5]; every comparison with an
    infinity on the wrong side or with NaN is false. *)
Definition in_range (x : pyfloat) : bool :=
  match x with
  | finite q => Qle_bool float_0_01 q && Qle_bool q float_0_5
  | _ => false
  end.

(** How [main] ends: [sys.exit(1)] after a message, an exception that
    nothing catches, the prompt of line 121 still waiting for an acceptable
    answer, or the call of [save_outputs] on what [process_sales_data]
    returned. *)
Inductive outcome :=
  | exit_1
  | uncaught_exception
  | prompting
  | saved (out : output).

Section main.
Context {rng : Type}.
Variable IsolationForest_fit_predict :
  contamination → option Z → rng → list Feature.row → nat → Z.
Variable to_datetime : string → option Z.
(** [s.strip().lower()] and [float(s)], [None] for [ValueError]. *)
Variable strip_lower : string → string.
Variable float : string → option pyfloat.

(** Lines 120-131: the loop over the answers typed at the prompt; [None]
    when every answer so far was refused. *)
Fixpoint read_contamination (answers : list string) : option contamination :=
  match answers with
  | [] => None
  | answer :: answers' =>
      let contamination_input := strip_lower answer in
      if decide (contamination_input = "auto"%string) then Some auto_mode
      else
        match float contamination_input with
        | Some (finite q) =>
            if in_range (finite q) then Some (fraction q)
            else read_contamination answers'
        | Some _ => read_contamination answers'
        | None => read_contamination answers'
        end
  end.

(** Lines 112-141.  [file_exists] is the answer of [os.path.exists]; the
    header and the cells are what [read_csv] finds in the file. *)
Definition main (file_exists : bool) (answers : list string)
    (columns : list string) (cells : list (Z * string)) (g : rng) : outcome :=
  if file_exists then
    match read_contamination answers with
    | None => prompting
    | Some contamination =>
        match load_data_or_exit to_datetime columns cells with
        | None => exit_1
        | Some df =>
            match process_sales_data IsolationForest_fit_predict
                    df contamination g with
            | None => uncaught_exception
            | Some out => saved out
            end
        end
    end
  else exit_1.
End main.

(** A date parser and a float parser to run [main] on. *)
Definition sample_to_datetime (s : string) : option Z :=
  if decide (s = "01/01/2024"%string) then Some 19723%Z
  else if decide (s = "01/02/2024"%string) then Some 19724%Z
  else None.

Definition sample_float (s : string) : option pyfloat :=
  if decide (s = "0.1"%string) then Some (finite (1 # 10))
  else if decide (s = "0.7"%string) then Some (finite (7 # 10))
  else if decide (s = "nan"%string) then Some nan
  else None.

Implicit Types (t u : list Full.row) (i j k m s e : nat).
Implicit Types (idxs : list nat) (a sv ev : Z).

(** ** Vocabulary of the statements *)

(** Rows [s] and [e] are two observed days, worth [sv] and [ev], with no
    observed day strictly between them. *)
Definition anchors (t : list Full.row) (s e : nat) (sv ev : Z) : Prop :=
  s < e ∧ Total_Sales_at t s = Some sv ∧ Total_Sales_at t e = Some ev ∧
  ∀ k, s < k < e → Total_Sales_at t k = None.

(** The cells that the gap filler never writes. *)
Definition key (r : Full.row) : Z * option Z :=
  (Full.Date r, Full.Total_Sales r).

(** What the corrector leaves on row [i]. *)
Definition corrected_row (rows : list Final.row) (flags : list bool) (i : nat)
    (r : Final.row) : Final.row :=
  let flagged := default false (flags !! i) in
  let r1 :=
    set_Daily_Sales r
      (round_half_even
         (default 0%Q
            (interpolate_cell (mask_nan flags (Final.Daily_Sales <$> rows)) i
               (if flagged then None else Some (Final.Daily_Sales r))))) in
  if flagged then set_Notes Assumed r1 else r1.

(** ** Sample inputs and sample forests *)

Definition obs (total date : Z) : Raw.row :=
  {| Raw.Total_Sales := total; Raw.Date := date |}.

(** A forest that finds no outlier. *)
Definition all_inliers
  : contamination → option Z → unit → list Feature.row → nat → Z :=
  λ _ _ _ _ _, 1%Z.

(** A forest that, seeded, labels the rows selling more than 100 as outliers
    and, unseeded, follows the ambient generator. *)
Definition spike_forest
  : contamination → option Z → nat → list Feature.row → nat → Z :=
  λ _ random_state g X i,
    match random_state with
    | Some _ =>
        match X !! i with
        | Some x => if bool_decide (100 < Feature.Daily_Sales x)%Z then (-1)%Z
                    else 1%Z
        | None => 1%Z
        end
    | None => if Nat.even (g + i) then (-1)%Z else 1%Z
    end.

(** * Properties *)


(** ** Rounding *)

Lemma round_half_even_integer (q : Q) (z : Z) :
  q == inject_Z z → round_half_even q = z.
Proof.
  intros Hq. unfold round_half_even.
  rewrite (Qfloor_comp _ _ Hq), Qfloor_Z.
  assert (Hlt : (q - inject_Z z < 1 # 2)%Q).
  { rewrite Hq. unfold Qminus. rewrite Qplus_opp_r. reflexivity. }
  by rewrite (proj1 (Qlt_alt _ _) Hlt).
Qed.

Lemma avg_delta_one (a b : Z) : avg_delta a b 1 = (b - a)%Z.
Proof.
  unfold avg_delta. apply round_half_even_integer.
  change (inject_Z (Z.of_nat 1)) with 1%Q. unfold Qdiv.
  change (/ 1)%Q with 1%Q. apply Qmult_1_r.
Qed.

(** ** The gap filler *)

Lemma Total_Sales_at_lt t k v : Total_Sales_at t k = Some v → k < length t.
Proof.
  unfold Total_Sales_at. destruct (t !! k) eqn:E; [|done].
  intros _. by eapply lookup_lt_Some.
Qed.

Lemma Total_Sales_at_key t k :
  Total_Sales_at t k = (key <$> t) !! k ≫= snd.
Proof. unfold Total_Sales_at. rewrite list_lookup_fmap. by destruct (t !! k). Qed.

Lemma set_assumed_key a t j :
  set_assumed a <$> t !! j =
  (λ p : Z * option Z,
     {| Full.Date := p.1; Full.Total_Sales := p.2;
        Full.Daily_Sales := Some a; Full.Notes := Some Assumed |})
    <$> (key <$> t) !! j.
Proof. rewrite list_lookup_fmap. by destruct (t !! j). Qed.

Lemma same_key_length t t' : key <$> t = key <$> t' → length t = length t'.
Proof. intros H. by rewrite <-(length_fmap key t), H, length_fmap. Qed.

Lemma same_key_Total_Sales_at t t' k :
  key <$> t = key <$> t' → Total_Sales_at t k = Total_Sales_at t' k.
Proof. intros H. by rewrite !Total_Sales_at_key, H. Qed.

Lemma same_key_anchors t t' s e sv ev :
  key <$> t = key <$> t' → anchors t s e sv ev → anchors t' s e sv ev.
Proof.
  intros H (Hlt & Hs & He & Hgap). unfold anchors.
  rewrite <-!(same_key_Total_Sales_at t t') by done.
  split_and!; [done..|]. intros k Hk.
  rewrite <-(same_key_Total_Sales_at t t') by done. auto.
Qed.

Lemma anchors_unique t s e sv ev s' e' sv' ev' j :
  anchors t s e sv ev → anchors t s' e' sv' ev' →
  s < j ≤ e → s' < j ≤ e' →
  s = s' ∧ e = e' ∧ sv = sv' ∧ ev = ev'.
Proof.
  intros (Hlt & Hs & He & Hgap) (Hlt' & Hs' & He' & Hgap') Hj Hj'.
  assert (e = e') as <-.
  { destruct (Nat.lt_trichotomy e e') as [H|[H|H]]; [|done|].
    - rewrite Hgap' in He by lia. done.
    - rewrite Hgap in He' by lia. done. }
  assert (s = s') as <-.
  { destruct (Nat.lt_trichotomy s s') as [H|[H|H]]; [|done|].
    - rewrite Hgap in Hs' by lia. done.
    - rewrite Hgap' in Hs by lia. done. }
  split_and!; congruence.
Qed.

(** *** The two scans *)

Lemma scan_start_Some t k s :
  scan_start t k = Some s →
  s ≤ k ∧ (∃ v, Total_Sales_at t s = Some v) ∧
  ∀ m, s < m ≤ k → Total_Sales_at t m = None.
Proof.
  induction k as [|k IH]; simpl.
  - destruct (Total_Sales_at t 0) eqn:E; simpl; [|done].
    intros [= <-]. split_and!; [lia|eauto|]. intros m ?; lia.
  - destruct (Total_Sales_at t (S k)) eqn:E; simpl.
    + intros [= <-]. split_and!; [lia|eauto|]. intros m ?; lia.
    + intros (Hle & Hv & Hgap)%IH. split_and!; [lia|done|].
      intros m Hm. destruct (decide (m = S k)) as [->|]; [done|].
      apply Hgap. lia.
Qed.

Lemma scan_start_None t k :
  scan_start t k = None → ∀ m, m ≤ k → Total_Sales_at t m = None.
Proof.
  induction k as [|k IH]; simpl.
  - destruct (Total_Sales_at t 0) eqn:E; simpl; [done|].
    intros _ m ?. by replace m with 0 by lia.
  - destruct (Total_Sales_at t (S k)) eqn:E; simpl; [done|].
    intros H m Hm. destruct (decide (m = S k)) as [->|]; [done|].
    apply IH; [done|lia].
Qed.

Lemma scan_end_spec t fuel e :
  e ≤ scan_end t fuel e ∧
  (∀ m, e ≤ m < scan_end t fuel e → Total_Sales_at t m = None) ∧
  (scan_end t fuel e < e + fuel → scan_end t fuel e < length t →
   ∃ v, Total_Sales_at t (scan_end t fuel e) = Some v).
Proof.
  revert e. induction fuel as [|fuel IH]; intros e; simpl.
  - split_and!; [lia| intros; lia | intros; lia].
  - destruct (bool_decide (e < length t)) eqn:Hlt; simpl.
    + destruct (Total_Sales_at t e) eqn:E; simpl.
      * split_and!; [lia| intros; lia | eauto].
      * destruct (IH (S e)) as (Hle & Hgap & Hv).
        split_and!; [lia| |].
        -- intros m Hm. destruct (decide (m = e)) as [->|]; [done|].
           apply Hgap. lia.
        -- intros ??. apply Hv; lia.
    + apply bool_decide_eq_false in Hlt.
      split_and!; [lia| intros; lia | intros; lia].
Qed.

Lemma scan_start_anchor t s e sv ev i :
  anchors t s e sv ev → s < i ≤ e → scan_start t (i - 1) = Some s.
Proof.
  intros (Hlt & Hs & He & Hgap) Hi.
  destruct (scan_start t (i - 1)) as [s'|] eqn:E.
  - apply scan_start_Some in E as (Hle & [v Hv] & Hgap').
    f_equal. destruct (Nat.lt_trichotomy s s') as [H|[H|H]]; [|done|].
    + rewrite Hgap in Hv by lia. done.
    + rewrite Hgap' in Hs by lia. done.
  - eapply scan_start_None with (m := s) in E; [congruence|lia].
Qed.

Lemma scan_end_anchor t s e sv ev i :
  anchors t s e sv ev → s < i ≤ e → scan_end t (length t) i = e.
Proof.
  intros (Hlt & Hs & He & Hgap) Hi.
  destruct (scan_end_spec t (length t) i) as (Hle & Hgap' & Hv).
  pose proof (Total_Sales_at_lt _ _ _ He) as Hlen.
  destruct (Nat.lt_trichotomy (scan_end t (length t) i) e) as [H|[H|H]]; [|done|].
  - destruct Hv as [v Hv]; [lia..|]. rewrite Hgap in Hv by lia. done.
  - rewrite Hgap' in He by lia. done.
Qed.

(** *** The writes of one turn of the outer loop *)

Lemma fill_range_lookup t a s e j :
  fill_range t a s e !! j =
  if decide (s < j ≤ e) then set_assumed a <$> t !! j else t !! j.
Proof.
  unfold fill_range.
  assert (Hgen : ∀ n b (u : list Full.row),
    foldl (λ u j, alter (set_assumed a) j u) u (seq b n) !! j =
    if decide (b ≤ j < b + n) then set_assumed a <$> u !! j else u !! j).
  { induction n as [|n IH]; intros b u; simpl.
    - case_decide; [lia|done].
    - rewrite IH. destruct (decide (j = b)) as [->|Hne].
      + rewrite list_lookup_alter_eq. repeat case_decide; try lia; done.
      + rewrite list_lookup_alter_ne by done.
        repeat case_decide; try lia; done. }
  rewrite Hgen. repeat case_decide; try lia; done.
Qed.

Lemma fill_range_key t a s e : key <$> fill_range t a s e = key <$> t.
Proof.
  apply list_eq; intros j. rewrite !list_lookup_fmap, fill_range_lookup.
  case_decide; [|done]. by destruct (t !! j).
Qed.

Lemma fill_step_key t i : key <$> fill_step t i = key <$> t.
Proof. unfold fill_step. repeat case_match; auto using fill_range_key. Qed.

Lemma foldl_fill_step_key idxs t : key <$> foldl fill_step t idxs = key <$> t.
Proof.
  revert t. induction idxs as [|i idxs IH]; intros t; simpl; [done|].
  by rewrite IH, fill_step_key.
Qed.

(** A turn either leaves the frame alone or fills from anchor to anchor. *)
Lemma fill_step_cases t i :
  1 ≤ i →
  fill_step t i = t ∨
  ∃ s e sv ev,
    anchors t s e sv ev ∧ s < i ≤ e ∧
    (Total_Sales_at t i = None ∨ i = length t - 1) ∧
    fill_step t i = fill_range t (avg_delta sv ev (e - s)) s e.
Proof.
  intros Hi. unfold fill_step.
  destruct (isna (Total_Sales_at t i) || bool_decide (i = length t - 1))
    eqn:Hfire; [|by left].
  destruct (bool_decide (scan_end t (length t) i < length t)) eqn:Hend;
    [apply bool_decide_eq_true in Hend|by left].
  destruct (scan_start t (i - 1)) as [s|] eqn:Hs; simpl.
  - apply scan_start_Some in Hs as (Hle & [sv Hsv] & Hgap).
    rewrite Hsv.
    destruct (scan_end_spec t (length t) i) as (Hle' & Hgap' & Hv).
    destruct Hv as [ev Hev]; [lia|done|]. rewrite Hev.
    right. exists s, (scan_end t (length t) i), sv, ev.
    split_and!; [|lia|lia| |done].
    + split_and!; [lia|done|done|].
      intros k Hk. destruct (decide (k < i)); [apply Hgap|apply Hgap']; lia.
    + apply orb_true_iff in Hfire as [H|H].
      * left. by destruct (Total_Sales_at t i).
      * right. by apply bool_decide_eq_true in H.
  - pose proof (scan_start_None _ _ Hs 0 ltac:(lia)) as H0.
    rewrite H0. by left.
Qed.

Lemma fill_step_fire t i s e sv ev :
  anchors t s e sv ev → s < i ≤ e →
  Total_Sales_at t i = None ∨ i = length t - 1 →
  fill_step t i = fill_range t (avg_delta sv ev (e - s)) s e.
Proof.
  intros Ha Hi Hfire. unfold fill_step.
  rewrite (scan_start_anchor _ _ _ _ _ _ Ha Hi).
  rewrite (scan_end_anchor _ _ _ _ _ _ Ha Hi). simpl.
  destruct Ha as (Hlt & Hs & He & Hgap). rewrite Hs, He.
  pose proof (Total_Sales_at_lt _ _ _ He) as Hlen.
  rewrite (bool_decide_eq_true_2 (e < length t)) by done.
  destruct Hfire as [-> | ->]; simpl; [done|].
  rewrite (bool_decide_eq_true_2 (length t - 1 = length t - 1)) by done.
  by rewrite orb_true_r.
Qed.

(** *** The whole outer loop *)

Lemma set_assumed_same_key a t t' j :
  key <$> t = key <$> t' → set_assumed a <$> t !! j = set_assumed a <$> t' !! j.
Proof. intros H. by rewrite !set_assumed_key, H. Qed.

Lemma set_assumed_idemp a (o : option Full.row) :
  set_assumed a <$> (set_assumed a <$> o) = set_assumed a <$> o.
Proof. by destruct o. Qed.

(** Once a turn between the anchors [s] and [e] has fired, row [j] holds the
    anchors' average for the rest of the loop. *)
Lemma foldl_fill_step_written t0 s e sv ev j :
  anchors t0 s e sv ev → s < j ≤ e →
  ∀ idxs t,
    key <$> t = key <$> t0 →
    Forall (λ i, 1 ≤ i) idxs →
    (∃ i, i ∈ idxs ∧ s < i ≤ e ∧
          (Total_Sales_at t0 i = None ∨ i = length t0 - 1)) ∨
    t !! j = set_assumed (avg_delta sv ev (e - s)) <$> t0 !! j →
    foldl fill_step t idxs !! j =
    set_assumed (avg_delta sv ev (e - s)) <$> t0 !! j.
Proof.
  intros Ha Hj idxs. induction idxs as [|i idxs IH]; intros t Hkey Hidx Hw.
  { destruct Hw as [(i & []%elem_of_nil & _)|Hw]. done. }
  apply Forall_cons in Hidx as [Hi Hidx]. simpl.
  pose proof (same_key_anchors _ _ _ _ _ _ (eq_sym Hkey) Ha) as Ha'.
  apply IH; [by rewrite fill_step_key|done|].
  destruct Hw as [(i' & [->|Hin]%elem_of_cons & Hi' & Hfire)|Hw].
  - right. rewrite (fill_step_fire t i s e sv ev); [|done..|].
    + rewrite fill_range_lookup, decide_True by done.
      by apply set_assumed_same_key.
    + by rewrite (same_key_Total_Sales_at t t0), (same_key_length t t0).
  - left. eauto.
  - right. destruct (fill_step_cases t i Hi) as
      [->|(s' & e' & sv' & ev' & Hb & Hi' & _ & ->)]; [done|].
    rewrite fill_range_lookup. case_decide as Hj'; [|done].
    destruct (anchors_unique _ _ _ _ _ _ _ _ _ j Ha' Hb) as (<- & <- & <- & <-);
      [done..|].
    by rewrite Hw, set_assumed_idemp.
Qed.

(** Row [j] is left alone when no turn fires between anchors around [j]. *)
Lemma foldl_fill_step_frame t0 j :
  ∀ idxs t,
    key <$> t = key <$> t0 →
    Forall (λ i, 1 ≤ i) idxs →
    (∀ i s e sv ev, i ∈ idxs → anchors t0 s e sv ev → s < i ≤ e → s < j ≤ e →
       Total_Sales_at t0 i = None ∨ i = length t0 - 1 → False) →
    foldl fill_step t idxs !! j = t !! j.
Proof.
  intros idxs. induction idxs as [|i idxs IH]; intros t Hkey Hidx Hno; [done|].
  apply Forall_cons in Hidx as [Hi Hidx]. simpl.
  rewrite IH; [|by rewrite fill_step_key|done|].
  - destruct (fill_step_cases t i Hi) as
      [->|(s & e & sv & ev & Ha & Hi' & Hfire & ->)]; [done|].
    rewrite fill_range_lookup. case_decide as Hj; [|done].
    exfalso. apply (Hno i s e sv ev); [left|by eapply same_key_anchors|done..|].
    by rewrite <-(same_key_Total_Sales_at t t0), <-(same_key_length t t0).
  - intros i' s e sv ev Hin. apply Hno. by right.
Qed.

Lemma fill_loop_length t : length (fill_loop t) = length t.
Proof. apply same_key_length, foldl_fill_step_key. Qed.

Lemma fill_loop_indices t : Forall (λ i, 1 ≤ i) (seq 1 (length t - 1)).
Proof. apply Forall_forall. intros i Hi%elem_of_seq. lia. Qed.

(** The rows the loop writes: those between two anchors that enclose a
    missing day or end on the last row. *)
Lemma fill_loop_written t s e sv ev j :
  anchors t s e sv ev → s < j ≤ e →
  s + 1 < e ∨ e = length t - 1 →
  fill_loop t !! j = set_assumed (avg_delta sv ev (e - s)) <$> t !! j.
Proof.
  intros Ha Hj Hcase. unfold fill_loop.
  apply (foldl_fill_step_written t s e sv ev j); [done..|apply fill_loop_indices|].
  left. pose proof Ha as (Hlt & Hs & He & Hgap).
  pose proof (Total_Sales_at_lt _ _ _ He) as Hlen.
  destruct Hcase as [Hgap1 | ->].
  - exists (S s). rewrite elem_of_seq. split_and!; [lia..|].
    left. apply Hgap. lia.
  - exists (length t - 1). rewrite elem_of_seq. split_and!; [lia..|]. by right.
Qed.

Lemma fill_loop_frame t j :
  (∀ s e sv ev, anchors t s e sv ev → s < j ≤ e →
     s + 1 < e ∨ e = length t - 1 → False) →
  fill_loop t !! j = t !! j.
Proof.
  intros Hno. unfold fill_loop.
  apply (foldl_fill_step_frame t j); [done|apply fill_loop_indices|].
  intros i s e sv ev _ Ha Hi Hj Hfire. apply (Hno s e sv ev); [done..|].
  destruct Ha as (Hlt & Hs & He & Hgap).
  pose proof (Total_Sales_at_lt _ _ _ He) as Hlen.
  destruct Hfire as [Hna | ->]; [|right; lia].
  left. destruct (decide (i = e)) as [->|]; [congruence|lia].
Qed.

Lemma fill_gaps_lookup t j : fill_gaps t !! j = finalize <$> fill_loop t !! j.
Proof. unfold fill_gaps. by rewrite list_lookup_fmap. Qed.

Lemma fill_gaps_length t : length (fill_gaps t) = length t.
Proof. unfold fill_gaps. by rewrite length_fmap, fill_loop_length. Qed.

(** ** The corrector *)

Lemma mask_nan_lookup (flags : list bool) (daily : list Z) i :
  mask_nan flags daily !! i =
  (λ d, if default false (flags !! i) then None else Some d) <$> daily !! i.
Proof. unfold mask_nan. by rewrite list_lookup_imap. Qed.

Lemma corrected_daily_lookup (flags : list bool) (daily : list Z) i :
  corrected_daily flags daily !! i =
  (λ d, round_half_even
          (default 0%Q
             (interpolate_cell (mask_nan flags daily) i
                (if default false (flags !! i) then None else Some d))))
    <$> daily !! i.
Proof.
  unfold corrected_daily, fillna, interpolate_linear.
  rewrite !list_lookup_fmap, list_lookup_imap, mask_nan_lookup.
  by destruct (daily !! i).
Qed.

Lemma correct_lookup (rows : list Final.row) (flags : list bool) i :
  correct rows flags !! i = corrected_row rows flags i <$> rows !! i.
Proof.
  unfold correct. rewrite list_lookup_imap, lookup_zip_with.
  rewrite corrected_daily_lookup, list_lookup_fmap.
  by destruct (rows !! i).
Qed.

Lemma correct_length (rows : list Final.row) (flags : list bool) :
  length (correct rows flags) = length rows.
Proof.
  unfold correct, corrected_daily, fillna, interpolate_linear, mask_nan.
  rewrite length_imap, length_zip_with, !length_fmap, !length_imap, length_fmap.
  lia.
Qed.

Lemma correct_Date (rows : list Final.row) (flags : list bool) :
  Final.Date <$> correct rows flags = Final.Date <$> rows.
Proof.
  apply list_eq; intros i. rewrite !list_lookup_fmap, correct_lookup.
  destruct (rows !! i) as [r|]; [|done]. simpl. unfold corrected_row.
  by destruct (default false (flags !! i)).
Qed.

Lemma corrected_row_unflagged rows flags i r :
  default false (flags !! i) = false → corrected_row rows flags i r = r.
Proof.
  intros Hf. unfold corrected_row. rewrite Hf. simpl.
  rewrite (round_half_even_integer _ (Final.Daily_Sales r)) by reflexivity.
  by destruct r.
Qed.

Lemma last_valid_None (col : list (option Z)) i :
  (∀ k y, k < i → col !! k ≠ Some (Some y)) → last_valid col i = None.
Proof.
  induction i as [|i IH]; intros Hnone; simpl; [done|].
  destruct (col !! i) as [[y|]|] eqn:E.
  - by destruct (Hnone i y ltac:(lia)).
  - apply IH. intros k y ?. apply Hnone. lia.
  - apply IH. intros k y ?. apply Hnone. lia.
Qed.

Lemma last_valid_Some (col : list (option Z)) i p y :
  col !! p = Some (Some y) → p < i →
  (∀ k z, p < k < i → col !! k ≠ Some (Some z)) →
  last_valid col i = Some (p, y).
Proof.
  intros Hp. induction i as [|i IH]; intros Hlt Hnone; simpl; [lia|].
  destruct (decide (i = p)) as [->|Hne]; [by rewrite Hp|].
  destruct (col !! i) as [[z|]|] eqn:E.
  - by destruct (Hnone i z ltac:(lia)).
  - apply IH; [lia|]. intros k z ?. apply Hnone. lia.
  - apply IH; [lia|]. intros k z ?. apply Hnone. lia.
Qed.

Lemma first_valid_from_None j (col : list (option Z)) :
  (∀ k y, col !! k ≠ Some (Some y)) → first_valid_from j col = None.
Proof.
  revert j. induction col as [|[y|] col IH]; intros j Hnone; simpl; [done| |].
  - by destruct (Hnone 0 y).
  - apply IH. intros k y. apply (Hnone (S k) y).
Qed.

Lemma mask_nan_flagged (flags : list bool) (daily : list Z) k y :
  flags !! k = Some true → mask_nan flags daily !! k ≠ Some (Some y).
Proof.
  intros Hf. rewrite mask_nan_lookup, Hf. simpl. by destruct (daily !! k).
Qed.

(** ** load_data *)

Lemma read_csv_Date (raw : list Raw.row) :
  Loaded.Date <$> read_csv raw = Raw.Date <$> raw.
Proof.
  unfold read_csv. rewrite fmap_imap, <-(imap_const Raw.Date).
  by apply imap_ext.
Qed.

Lemma drop_duplicates_from_Date (seen : list Z) (df : list Loaded.row) (d : Z) :
  d ∈ Loaded.Date <$> drop_duplicates_from seen df ↔
  d ∈ Loaded.Date <$> df ∧ d ∉ seen.
Proof.
  revert seen. induction df as [|r df IH]; intros seen; simpl.
  - rewrite elem_of_nil. tauto.
  - case_bool_decide as Hseen; rewrite ?fmap_cons, ?elem_of_cons, IH.
    + split; [tauto|]. intros [[->|?] ?]; tauto.
    + rewrite not_elem_of_cons.
      destruct (decide (d = Loaded.Date r)) as [->|]; tauto.
Qed.

Lemma drop_duplicates_from_NoDup (seen : list Z) (df : list Loaded.row) :
  NoDup (Loaded.Date <$> drop_duplicates_from seen df).
Proof.
  revert seen. induction df as [|r df IH]; intros seen; simpl.
  - constructor.
  - case_bool_decide as Hseen; [done|].
    rewrite fmap_cons. apply NoDup_cons. split; [|done].
    rewrite drop_duplicates_from_Date, not_elem_of_cons. tauto.
Qed.

#[global] Instance Date_le_trans : Transitive Date_le.
Proof. unfold Date_le. intros a b c. lia. Qed.

#[global] Instance Date_le_total : Total Date_le.
Proof. unfold Date_le. intros a b. lia. Qed.

Lemma load_data_Permutation (raw : list Raw.row) :
  load_data raw ≡ₚ drop_duplicates (read_csv raw).
Proof. apply merge_sort_Permutation. Qed.

Lemma load_data_Date_elem (raw : list Raw.row) (d : Z) :
  d ∈ Loaded.Date <$> load_data raw ↔ d ∈ Raw.Date <$> raw.
Proof.
  rewrite load_data_Permutation. unfold drop_duplicates.
  rewrite drop_duplicates_from_Date, read_csv_Date, elem_of_nil. tauto.
Qed.

Lemma load_data_NoDup (raw : list Raw.row) :
  NoDup (Loaded.Date <$> load_data raw).
Proof. rewrite load_data_Permutation. apply drop_duplicates_from_NoDup. Qed.

(** ** Minimum and maximum of the date column *)

Lemma foldl_min_spec (l : list Z) (d : Z) :
  (foldl Z.min d l = d ∨ foldl Z.min d l ∈ l) ∧
  (foldl Z.min d l ≤ d)%Z ∧ ∀ x, x ∈ l → (foldl Z.min d l ≤ x)%Z.
Proof.
  revert d. induction l as [|y l IH]; intros d; simpl.
  - split_and!; [by left|lia|]. intros x []%elem_of_nil.
  - destruct (IH (Z.min d y)) as (Hin & Hle & Hall).
    split_and!; [|lia|].
    + destruct Hin as [->|Hin]; [|right; by right].
      destruct (Z.min_spec d y) as [[_ ->]|[_ ->]]; [by left|right; by left].
    + intros x [->|Hx]%elem_of_cons; [lia|by apply Hall].
Qed.

Lemma foldl_max_spec (l : list Z) (d : Z) :
  (foldl Z.max d l = d ∨ foldl Z.max d l ∈ l) ∧
  (d ≤ foldl Z.max d l)%Z ∧ ∀ x, x ∈ l → (x ≤ foldl Z.max d l)%Z.
Proof.
  revert d. induction l as [|y l IH]; intros d; simpl.
  - split_and!; [by left|lia|]. intros x []%elem_of_nil.
  - destruct (IH (Z.max d y)) as (Hin & Hle & Hall).
    split_and!; [|lia|].
    + destruct Hin as [->|Hin]; [|right; by right].
      destruct (Z.max_spec d y) as [[_ ->]|[_ ->]]; [right; by left|by left].
    + intros x [->|Hx]%elem_of_cons; [lia|by apply Hall].
Qed.

Lemma Series_min_spec (l : list Z) (m : Z) :
  Series_min l = Some m → m ∈ l ∧ ∀ x, x ∈ l → (m ≤ x)%Z.
Proof.
  destruct l as [|d l]; simpl; [done|]. intros [= <-].
  destruct (foldl_min_spec l d) as (Hin & Hle & Hall). split.
  - destruct Hin as [->|Hin]; [by left|by right].
  - intros x [->|Hx]%elem_of_cons; auto.
Qed.

Lemma Series_max_spec (l : list Z) (m : Z) :
  Series_max l = Some m → m ∈ l ∧ ∀ x, x ∈ l → (x ≤ m)%Z.
Proof.
  destruct l as [|d l]; simpl; [done|]. intros [= <-].
  destruct (foldl_max_spec l d) as (Hin & Hle & Hall). split.
  - destruct Hin as [->|Hin]; [by left|by right].
  - intros x [->|Hx]%elem_of_cons; auto.
Qed.

Lemma Series_min_is_Some (l : list Z) : l ≠ [] → is_Some (Series_min l).
Proof. destruct l; [done|]. simpl. eauto. Qed.

Lemma Series_max_is_Some (l : list Z) : l ≠ [] → is_Some (Series_max l).
Proof. destruct l; [done|]. simpl. eauto. Qed.

Lemma Series_min_unique (l : list Z) (m : Z) :
  m ∈ l → (∀ x, x ∈ l → (m ≤ x)%Z) → Series_min l = Some m.
Proof.
  intros Hin Hall. destruct (Series_min_is_Some l) as [m' Hm'].
  { intros ->. by apply elem_of_nil in Hin. }
  rewrite Hm'. f_equal. apply Series_min_spec in Hm' as [Hin' Hall'].
  apply Hall in Hin'. apply Hall' in Hin. lia.
Qed.

Lemma Series_max_unique (l : list Z) (m : Z) :
  m ∈ l → (∀ x, x ∈ l → (x ≤ m)%Z) → Series_max l = Some m.
Proof.
  intros Hin Hall. destruct (Series_max_is_Some l) as [m' Hm'].
  { intros ->. by apply elem_of_nil in Hin. }
  rewrite Hm'. f_equal. apply Series_max_spec in Hm' as [Hin' Hall'].
  apply Hall in Hin'. apply Hall' in Hin. lia.
Qed.

(** ** Lines 24-31 *)

Lemma diff_from_lookup (prev : Z) (col : list Z) i :
  diff_from prev col !! i =
  (λ x, Some (Z.sub x match i with
                       | 0 => prev
                       | S i' => default 0%Z (col !! i')
                       end)) <$> col !! i.
Proof.
  revert prev i. induction col as [|y col IH]; intros prev [|i]; simpl; [done..|].
  rewrite IH. by destruct i.
Qed.

Lemma add_daily_sales_lookup (df : list Loaded.row) i :
  add_daily_sales df !! i =
  (λ r, {| Df.index := Loaded.index r;
           Df.Total_Sales := Loaded.Total_Sales r;
           Df.Date := Loaded.Date r;
           Df.Daily_Sales :=
             match i with
             | 0 => 0%Z
             | S i' =>
                 (Loaded.Total_Sales r
                  - default 0 (Loaded.Total_Sales <$> df !! i'))%Z
             end;
           Df.Notes := if bool_decide (Loaded.index r = 0) then Assumed
                       else Delta |}) <$> df !! i.
Proof.
  unfold add_daily_sales, fillna. rewrite lookup_zip_with, list_lookup_fmap.
  destruct df as [|r0 df]; [done|]. destruct i as [|i]; simpl; [done|].
  rewrite diff_from_lookup, !list_lookup_fmap.
  destruct (df !! i) as [r|]; simpl; [|done].
  destruct i as [|i]; simpl; [done|]. by rewrite list_lookup_fmap.
Qed.

Lemma add_daily_sales_Date (df : list Loaded.row) :
  Df.Date <$> add_daily_sales df = Loaded.Date <$> df.
Proof.
  apply list_eq; intros i.
  rewrite !list_lookup_fmap, add_daily_sales_lookup. by destruct (df !! i).
Qed.

Lemma row_of_date_Date (df : list Df.row) (d : Z) :
  Full.Date (row_of_date df d) = d.
Proof.
  unfold row_of_date.
  destruct (find _ df) as [r|] eqn:E; [|done].
  apply find_some in E as [_ E]. by apply bool_decide_eq_true in E.
Qed.

Lemma date_range_length (start stop : Z) :
  length (date_range start stop) = Z.to_nat (stop - start + 1).
Proof. unfold date_range. by rewrite length_fmap, length_seq. Qed.

Lemma date_range_lookup (start stop : Z) i d :
  date_range start stop !! i = Some d → d = (start + Z.of_nat i)%Z.
Proof.
  unfold date_range. rewrite list_lookup_fmap.
  destruct (seq _ _ !! i) as [k|] eqn:E; [|done].
  apply lookup_seq in E as [-> _]. by intros [= <-].
Qed.

Lemma date_range_lookup_lt (start stop : Z) i :
  i < Z.to_nat (stop - start + 1) →
  date_range start stop !! i = Some (start + Z.of_nat i)%Z.
Proof.
  intros Hi. unfold date_range. by rewrite list_lookup_fmap, lookup_seq_lt.
Qed.

Lemma full_calendar_Some (df : list Df.row) :
  df ≠ [] → NoDup (Df.Date <$> df) →
  ∃ dmin dmax,
    Series_min (Df.Date <$> df) = Some dmin ∧
    Series_max (Df.Date <$> df) = Some dmax ∧
    (dmin ≤ dmax)%Z ∧
    full_calendar df = Some (row_of_date df <$> date_range dmin dmax).
Proof.
  intros Hne Hnd.
  destruct (Series_min_is_Some (Df.Date <$> df)) as [dmin Hmin].
  { by destruct df. }
  destruct (Series_max_is_Some (Df.Date <$> df)) as [dmax Hmax].
  { by destruct df. }
  exists dmin, dmax. split_and!; [done..| |].
  - apply Series_min_spec in Hmin as [Hin _].
    apply Series_max_spec in Hmax as [_ Hall]. by apply Hall.
  - unfold full_calendar, reindex. rewrite Hmin, Hmax. simpl.
    by rewrite decide_True.
Qed.

Lemma fill_gaps_Date t : Final.Date <$> fill_gaps t = Full.Date <$> t.
Proof.
  unfold fill_gaps, fill_loop.
  rewrite <-list_fmap_compose.
  change (Final.Date ∘ finalize) with (fst ∘ key).
  rewrite list_fmap_compose, foldl_fill_step_key, <-list_fmap_compose. done.
Qed.

Lemma fill_gaps_interior_observed t j (dr : Df.row) v :
  0 < j → j + 1 < length t →
  t !! j = Some (observed_row dr) →
  Total_Sales_at t (j - 1) = Some v →
  fill_gaps t !! j =
  Some {| Final.Date := Df.Date dr;
          Final.Total_Sales := Some (Df.Total_Sales dr);
          Final.Daily_Sales := Df.Daily_Sales dr;
          Final.Notes := Df.Notes dr |}.
Proof.
  intros Hj Hlast Hr Hprev.
  rewrite fill_gaps_lookup, fill_loop_frame, Hr; [done|].
  intros s e sv ev (Hlt & Hs & He & Hgap) Hin Hcase.
  assert (Hobs : Total_Sales_at t j = Some (Df.Total_Sales dr)).
  { unfold Total_Sales_at. by rewrite Hr. }
  assert (e = j) as ->.
  { destruct (decide (e = j)); [done|]. rewrite Hgap in Hobs by lia. done. }
  assert (s = j - 1) as ->.
  { destruct (decide (s = j - 1)); [done|]. rewrite Hgap in Hprev by lia. done. }
  lia.
Qed.

(** * The claims *)

(** ** The gap filler *)



(** C7 fails on the trailing days without total that the program can meet.
    The calendar ends on the latest date of the file, so such a day is a
    line of the file whose ["Total Sales"] cell is empty: lines 24-26 give it
    the delta 0 and, unless it is the first line, the note [Delta].  On a
    frame whose last rows have no total the gap filler finds no end anchor
    and writes nothing: each of these rows leaves it with its own delta and
    its own note, 0 and [Assumed] only where it had none.  So the trailing
    day of the file comes out with delta 0 and the note [Delta]. *)
Theorem trailing_day_without_total_keeps_its_note t k :
  (∀ i, k ≤ i < length t → Total_Sales_at t i = None) →
  ∀ i r, k ≤ i → t !! i = Some r →
    fill_gaps t !! i =
    Some {| Final.Date := Full.Date r;
            Final.Total_Sales := None;
            Final.Daily_Sales := default 0%Z (Full.Daily_Sales r);
            Final.Notes := default Assumed (Full.Notes r) |}.
Proof.
  intros Htail i r Hi Hr. pose proof (lookup_lt_Some _ _ _ Hr) as Hlen.
  rewrite fill_gaps_lookup, fill_loop_frame, Hr.
  - simpl. unfold finalize. f_equal. f_equal.
    pose proof (Htail i ltac:(lia)) as Hnone.
    unfold Total_Sales_at in Hnone. by rewrite Hr in Hnone.
  - intros s e sv ev (Hlt & Hs & He & Hgap) Hin _.
    pose proof (Total_Sales_at_lt _ _ _ He) as Hlen'.
    rewrite Htail in He by lia. done.
Qed.

(** The frame that lines 24-31 build for the lines [(100, 1/1)] and
    [(empty, 1/2)]. *)
Lemma trailing_day_without_total_keeps_its_note_witness :
  fill_gaps [Full.Build_row 1 (Some 100%Z) (Some 0%Z) (Some Assumed);
             Full.Build_row 2 None (Some 0%Z) (Some Delta)] !! 1 =
  Some {| Final.Date := 2; Final.Total_Sales := None;
          Final.Daily_Sales := 0; Final.Notes := Delta |}.
Proof.
  refine (trailing_day_without_total_keeps_its_note
            [Full.Build_row 1 (Some 100%Z) (Some 0%Z) (Some Assumed);
             Full.Build_row 2 None (Some 0%Z) (Some Delta)] 1 _ 1
            (Full.Build_row 2 None (Some 0%Z) (Some Delta)) _ _);
    [|lia|reflexivity].
  intros i Hi. simpl in Hi. by assert (i = 1) as -> by lia.
Defined.

(** ** The detector *)

Lemma features_length (rows : list Final.row) :
  length (features rows) = length rows.
Proof.
  unfold features, fillna, shift1, rolling_mean3.
  rewrite length_zip_with, length_zip, !length_fmap, length_take, length_imap.
  simpl. rewrite !length_fmap. lia.
Qed.

Lemma anomaly_scores_lookup {rng}
    (fp : contamination → option Z → rng → list Feature.row → nat → Z)
    c g (rows : list Final.row) i :
  i < length rows →
  anomaly_scores fp c g rows !! i = Some (fp c (Some 42%Z) g (features rows) i).
Proof.
  intros Hi. unfold anomaly_scores.
  rewrite list_lookup_fmap, lookup_seq_lt by (by rewrite features_length).
  done.
Qed.

Lemma anomalies_lookup {rng}
    (fp : contamination → option Z → rng → list Feature.row → nat → Z)
    c g (rows : list Final.row) i r :
  rows !! i = Some r →
  anomalies fp c g rows !! i =
  Some (bool_decide (fp c (Some 42%Z) g (features rows) i = (-1)%Z)
        || bool_decide (Final.Daily_Sales r < 0)%Z).
Proof.
  intros Hr. pose proof (lookup_lt_Some _ _ _ Hr) as Hi.
  unfold anomalies, iso_anomalies, negatives.
  by rewrite lookup_zip_with, !list_lookup_fmap, anomaly_scores_lookup, Hr.
Qed.

(** C3.  The flag of a day is true exactly when the forest labels the day
    -1 or the day's delta is negative; a negative delta is flagged whatever
    the forest says. *)
Theorem anomaly_flag_iff {rng}
    (fp : contamination → option Z → rng → list Feature.row → nat → Z)
    c g (rows : list Final.row) i r :
  rows !! i = Some r →
  ∃ flag,
    anomalies fp c g rows !! i = Some flag ∧
    (flag = true ↔
     fp c (Some 42%Z) g (features rows) i = (-1)%Z ∨ (Final.Daily_Sales r < 0)%Z) ∧
    ((Final.Daily_Sales r < 0)%Z → flag = true).
Proof.
  intros Hr. rewrite (anomalies_lookup _ _ _ _ _ _ Hr).
  eexists. split; [done|].
  rewrite orb_true_iff, !bool_decide_eq_true. tauto.
Qed.

Lemma anomaly_flag_iff_witness :
  ∃ flag,
    anomalies all_inliers auto_mode ()
      [Final.Build_row 1 (Some 100%Z) 0 Assumed;
       Final.Build_row 2 (Some 90%Z) (-10) Assumed] !! 1 = Some flag ∧
    flag = true.
Proof.
  destruct (anomaly_flag_iff all_inliers auto_mode ()
              [Final.Build_row 1 (Some 100%Z) 0 Assumed;
               Final.Build_row 2 (Some 90%Z) (-10) Assumed] 1
              (Final.Build_row 2 (Some 90%Z) (-10) Assumed) eq_refl)
    as (flag & Hflag & _ & Hneg).
  exists flag. split; [exact Hflag|]. apply Hneg. simpl. lia.
Defined.

(** C10.  A forest that is given a seed does not look at the ambient
    generator; the program always gives the seed 42, so two runs on the same
    frame and the same contamination return the same output, whatever state
    the generator is in. *)
Theorem seeded_runs_agree {rng}
    (fp : contamination → option Z → rng → list Feature.row → nat → Z) :
  (∀ c seed g1 g2 X i, fp c (Some seed) g1 X i = fp c (Some seed) g2 X i) →
  ∀ raw c g1 g2, run fp raw c g1 = run fp raw c g2.
Proof.
  intros Hseed raw c g1 g2. unfold run, process_sales_data.
  destruct (gap_filled (load_data raw)) as [filled|]; [|done]. simpl.
  assert (Hscores : anomaly_scores fp c g1 filled = anomaly_scores fp c g2 filled).
  { unfold anomaly_scores. apply list_fmap_ext. intros _ i _. apply Hseed. }
  unfold anomalies, iso_anomalies. by rewrite Hscores.
Qed.

Lemma seeded_runs_agree_witness :
  run spike_forest [obs 100 1; obs 110 2; obs 400 3; obs 410 4] (fraction (1 # 10)) 0 =
  run spike_forest [obs 100 1; obs 110 2; obs 400 3; obs 410 4] (fraction (1 # 10)) 7.
Proof.
  apply (seeded_runs_agree spike_forest). intros c seed g1 g2 X i. reflexivity.
Defined.

(** ** The corrector *)

Lemma correct_unflagged (series : list Final.row) (flags : list bool) :
  (∀ i, flags !! i ≠ Some true) →
  correct series flags = series.
Proof.
  intros Hflags. apply list_eq; intros i. rewrite correct_lookup.
  destruct (series !! i) as [r|]; [|done]. simpl. f_equal.
  apply corrected_row_unflagged.
  destruct (flags !! i) as [[]|] eqn:E; [|done..]. by destruct (Hflags i).
Qed.

(** C9.  The corrector run with no day flagged returns the series it was
    given: same dates, same deltas, same notes. *)
Theorem correct_without_flags (series : list Final.row) (flags : list bool) :
  (∀ i, flags !! i ≠ Some true) →
  correct series flags = series.
Proof. apply correct_unflagged. Qed.

(** C4, as the program has it.  A leading run of flagged days is filled with
    0; a trailing run of flagged days is filled with the delta of the last
    day before the run, which is not flagged.  The days of both runs are
    noted [Assumed]. *)
Theorem corrector_edge_runs (rows : list Final.row) (flags : list bool) :
  (∀ k, (∀ i, i ≤ k → flags !! i = Some true) →
     ∀ i r, i ≤ k → correct rows flags !! i = Some r →
       Final.Daily_Sales r = 0%Z ∧ Final.Notes r = Assumed) ∧
  (∀ p rp, rows !! p = Some rp → flags !! p = Some false →
     (∀ i, p < i < length rows → flags !! i = Some true) →
     ∀ i r, p < i → correct rows flags !! i = Some r →
       Final.Daily_Sales r = Final.Daily_Sales rp ∧ Final.Notes r = Assumed).
Proof.
  split.
  - intros k Hlead i r Hi. rewrite correct_lookup.
    destruct (rows !! i) as [ri|]; [|done]. simpl. intros [= <-].
    unfold corrected_row. rewrite (Hlead i Hi). simpl.
    rewrite last_valid_None; [done|].
    intros j y Hj. apply mask_nan_flagged, Hlead. lia.
  - intros p rp Hp Hfp Htrail i r Hi. rewrite correct_lookup.
    destruct (rows !! i) as [ri|] eqn:Hri; [|done]. simpl. intros [= <-].
    pose proof (lookup_lt_Some _ _ _ Hri) as Hlen.
    unfold corrected_row. rewrite (Htrail i) by lia. simpl.
    rewrite (last_valid_Some _ i p (Final.Daily_Sales rp)); [| |done|].
    + rewrite first_valid_from_None.
      * simpl.
        by rewrite (round_half_even_integer _ (Final.Daily_Sales rp))
          by reflexivity.
      * intros j y. rewrite lookup_drop.
        destruct (decide (S i + j < length rows)) as [Hlt|Hge].
        -- apply mask_nan_flagged, Htrail. lia.
        -- rewrite mask_nan_lookup, list_lookup_fmap.
           rewrite (lookup_ge_None_2 rows) by lia. done.
    + by rewrite mask_nan_lookup, list_lookup_fmap, Hp, Hfp.
    + intros j y Hj. apply mask_nan_flagged, Htrail. lia.
Qed.

(** C4 as the specification words it fails on a trailing run: with the last
    of two days flagged, the corrector gives that day the 10 of the day
    before, not 0. *)
Lemma trailing_run_filled_with_zero_counterexample :
  ¬ (∀ (rows : list Final.row) (flags : list bool) (k : nat),
       length flags = length rows →
       (∀ i, k ≤ i < length rows → flags !! i = Some true) →
       ∀ i r, k ≤ i → correct rows flags !! i = Some r →
         Final.Daily_Sales r = 0%Z).
Proof.
  intros H.
  specialize (H [Final.Build_row 1 (Some 100%Z) 10 Delta;
                 Final.Build_row 2 (Some 80%Z) (-20) Delta]
                [false; true] 1 eq_refl).
  assert (Hrun : ∀ i, 1 ≤ i < 2 → [false; true] !! i = Some true).
  { intros i Hi. by assert (i = 1) as -> by lia. }
  specialize (H Hrun 1 _ ltac:(lia) eq_refl). vm_compute in H. discriminate.
Qed.

Lemma correct_without_flags_witness :
  correct
    [Final.Build_row 1 (Some 100%Z) 0 Assumed;
     Final.Build_row 2 (Some 110%Z) 10 Delta;
     Final.Build_row 3 (Some 90%Z) 10 Assumed]
    (anomalies all_inliers auto_mode ()
       [Final.Build_row 1 (Some 100%Z) 0 Assumed;
        Final.Build_row 2 (Some 110%Z) 10 Delta;
        Final.Build_row 3 (Some 90%Z) 10 Assumed]) =
  [Final.Build_row 1 (Some 100%Z) 0 Assumed;
   Final.Build_row 2 (Some 110%Z) 10 Delta;
   Final.Build_row 3 (Some 90%Z) 10 Assumed].
Proof.
  apply correct_without_flags.
  intros [|[|[|i]]]; vm_compute; discriminate.
Defined.

Lemma corrector_edge_runs_witness :
  Final.Daily_Sales <$>
    correct
      [Final.Build_row 1 (Some 100%Z) 500 Assumed;
       Final.Build_row 2 (Some 110%Z) 10 Delta;
       Final.Build_row 3 (Some 130%Z) 20 Delta;
       Final.Build_row 4 (Some 90%Z) (-40) Delta;
       Final.Build_row 5 (Some 80%Z) (-10) Assumed]
      [true; false; false; true; true] !! 0 = Some 0%Z ∧
  Final.Daily_Sales <$>
    correct
      [Final.Build_row 1 (Some 100%Z) 500 Assumed;
       Final.Build_row 2 (Some 110%Z) 10 Delta;
       Final.Build_row 3 (Some 130%Z) 20 Delta;
       Final.Build_row 4 (Some 90%Z) (-40) Delta;
       Final.Build_row 5 (Some 80%Z) (-10) Assumed]
      [true; false; false; true; true] !! 4 = Some 20%Z.
Proof.
  pose proof (corrector_edge_runs
    [Final.Build_row 1 (Some 100%Z) 500 Assumed;
     Final.Build_row 2 (Some 110%Z) 10 Delta;
     Final.Build_row 3 (Some 130%Z) 20 Delta;
     Final.Build_row 4 (Some 90%Z) (-40) Delta;
     Final.Build_row 5 (Some 80%Z) (-10) Assumed]
    [true; false; false; true; true]) as [Hlead Htrail].
  split.
  - assert (Hrun : ∀ i, i ≤ 0 → [true; false; false; true; true] !! i = Some true).
    { intros i Hi. by assert (i = 0) as -> by lia. }
    destruct (correct _ _ !! 0) as [r|] eqn:E; [|vm_compute in E; discriminate].
    destruct (Hlead 0 Hrun 0 r ltac:(lia) E) as [Hd _].
    simpl. by rewrite Hd.
  - assert (Hrun : ∀ i, 2 < i < 5 → [true; false; false; true; true] !! i = Some true).
    { intros i Hi. by assert (i = 3 ∨ i = 4) as [->| ->] by lia. }
    destruct (correct _ _ !! 4) as [r|] eqn:E; [|vm_compute in E; discriminate].
    destruct (Htrail 2 _ eq_refl eq_refl Hrun 4 r ltac:(lia) E) as [Hd _].
    simpl. by rewrite Hd.
Defined.

(** ** The whole program *)

Lemma load_data_nonempty (raw : list Raw.row) : raw ≠ [] → load_data raw ≠ [].
Proof.
  destruct raw as [|r raw]; [done|]. intros _ Hnil.
  assert (Hin : Raw.Date r ∈ Loaded.Date <$> load_data (r :: raw)).
  { apply load_data_Date_elem. rewrite fmap_cons. by left. }
  rewrite Hnil in Hin. by apply elem_of_nil in Hin.
Qed.

Lemma add_daily_sales_nonempty (df : list Loaded.row) :
  df ≠ [] → add_daily_sales df ≠ [].
Proof.
  intros Hne Hnil. apply (f_equal (fmap Df.Date)) in Hnil.
  rewrite add_daily_sales_Date in Hnil. by destruct df.
Qed.

(** C2.  On a file with at least one line the program returns a frame of
    [(max_date - min_date).days + 1] rows whose row [i] is the day
    [min_date + i]: every calendar day from the earliest to the latest
    observed date, once. *)
Theorem output_covers_calendar {rng}
    (fp : contamination → option Z → rng → list Feature.row → nat → Z)
    (raw : list Raw.row) c g :
  raw ≠ [] →
  ∃ out min_date max_date,
    Series_min (Raw.Date <$> raw) = Some min_date ∧
    Series_max (Raw.Date <$> raw) = Some max_date ∧
    run fp raw c g = Some out ∧
    length (df_final out) = Z.to_nat (max_date - min_date) + 1 ∧
    ∀ i r, df_final out !! i = Some r →
           Final.Date r = (min_date + Z.of_nat i)%Z.
Proof.
  intros Hne.
  destruct (full_calendar_Some (add_daily_sales (load_data raw)))
    as (dmin & dmax & Hmin & Hmax & Hle & Hcal).
  { by apply add_daily_sales_nonempty, load_data_nonempty. }
  { rewrite add_daily_sales_Date. apply load_data_NoDup. }
  rewrite add_daily_sales_Date in Hmin, Hmax.
  apply Series_min_spec in Hmin as [Hmin_in Hmin_le].
  apply Series_max_spec in Hmax as [Hmax_in Hmax_le].
  eexists _, dmin, dmax. split_and!.
  - apply Series_min_unique; [by apply load_data_Date_elem|].
    intros x Hx. by apply Hmin_le, load_data_Date_elem.
  - apply Series_max_unique; [by apply load_data_Date_elem|].
    intros x Hx. by apply Hmax_le, load_data_Date_elem.
  - unfold run, process_sales_data, gap_filled. rewrite Hcal. reflexivity.
  - simpl. rewrite correct_length, fill_gaps_length, length_fmap, date_range_length.
    lia.
  - simpl. intros i r Hr.
    assert (Hd : (Final.Date <$> correct
                    (fill_gaps (row_of_date (add_daily_sales (load_data raw))
                                  <$> date_range dmin dmax))
                    (anomalies fp c g
                       (fill_gaps (row_of_date (add_daily_sales (load_data raw))
                                     <$> date_range dmin dmax)))) !! i
                 = Some (Final.Date r)).
    { by rewrite list_lookup_fmap, Hr. }
    rewrite correct_Date, fill_gaps_Date, !list_lookup_fmap in Hd.
    destruct (date_range dmin dmax !! i) as [d|] eqn:E; [|done].
    simpl in Hd. rewrite row_of_date_Date in Hd.
    apply date_range_lookup in E. congruence.
Qed.

Lemma output_covers_calendar_witness :
  ∃ out,
    run all_inliers [obs 130 3; obs 100 1; obs 125 3; obs 180 6] auto_mode ()
      = Some out ∧
    length (df_final out) = 6 ∧
    ∀ i r, df_final out !! i = Some r → Final.Date r = (1 + Z.of_nat i)%Z.
Proof.
  destruct (output_covers_calendar all_inliers
              [obs 130 3; obs 100 1; obs 125 3; obs 180 6] auto_mode ())
    as (out & dmin & dmax & Hmin & Hmax & Hrun & Hlen & Hdates); [done|].
  injection Hmin as <-. injection Hmax as <-.
  exists out. split_and!; [exact Hrun|exact Hlen|exact Hdates].
Defined.

(** *** A frame without calendar gaps *)

Lemma find_by_Date (ds : list Df.row) i r :
  NoDup (Df.Date <$> ds) → ds !! i = Some r →
  find (λ x, bool_decide (Df.Date x = Df.Date r)) ds = Some r.
Proof.
  revert i. induction ds as [|x ds IH]; intros i Hnd Hr; [done|].
  rewrite fmap_cons in Hnd. apply NoDup_cons in Hnd as [Hx Hnd]. simpl.
  destruct i as [|i]; simpl in Hr.
  - injection Hr as ->. by rewrite bool_decide_eq_true_2.
  - rewrite bool_decide_eq_false_2; [by eapply IH|].
    intros Heq. apply Hx. rewrite Heq.
    apply list_elem_of_fmap_2. by eapply list_elem_of_lookup_2.
Qed.

Lemma row_of_date_observed (ds : list Df.row) i r :
  NoDup (Df.Date <$> ds) → ds !! i = Some r →
  row_of_date ds (Df.Date r) = observed_row r.
Proof. intros Hnd Hr. unfold row_of_date. by erewrite find_by_Date. Qed.

Lemma full_calendar_consecutive (ds : list Df.row) (d0 : Z) :
  ds ≠ [] →
  (∀ i r, ds !! i = Some r → Df.Date r = (d0 + Z.of_nat i)%Z) →
  full_calendar ds = Some (observed_row <$> ds).
Proof.
  intros Hne Hdates.
  assert (Hnd : NoDup (Df.Date <$> ds)).
  { apply NoDup_alt. intros i j d.
    rewrite !list_lookup_fmap.
    destruct (ds !! i) as [ri|] eqn:Ei; [|done].
    destruct (ds !! j) as [rj|] eqn:Ej; [|done].
    simpl. intros [= <-] [= Hj].
    apply Hdates in Ei, Ej. lia. }
  assert (Hlen : 0 < length ds) by (destruct ds; [done|simpl; lia]).
  assert (Hmin : Series_min (Df.Date <$> ds) = Some d0).
  { apply Series_min_unique.
    - destruct (lookup_lt_is_Some_2 ds 0 Hlen) as [r Hr].
      apply list_elem_of_fmap. exists r. split; [|by eapply list_elem_of_lookup_2].
      apply Hdates in Hr. lia.
    - intros x (r & -> & [i Hr]%list_elem_of_lookup_1)%list_elem_of_fmap.
      apply Hdates in Hr. lia. }
  assert (Hmax : Series_max (Df.Date <$> ds)
                 = Some (d0 + Z.of_nat (length ds - 1))%Z).
  { apply Series_max_unique.
    - destruct (lookup_lt_is_Some_2 ds (length ds - 1)) as [r Hr]; [lia|].
      apply list_elem_of_fmap. exists r. split; [|by eapply list_elem_of_lookup_2].
      by apply Hdates in Hr.
    - intros x (r & -> & [i Hr]%list_elem_of_lookup_1)%list_elem_of_fmap.
      pose proof (lookup_lt_Some _ _ _ Hr). apply Hdates in Hr. lia. }
  unfold full_calendar, reindex. rewrite Hmin, Hmax. simpl.
  rewrite decide_True by done. f_equal.
  apply list_eq; intros i. unfold date_range.
  rewrite !list_lookup_fmap.
  replace (Z.to_nat (d0 + Z.of_nat (length ds - 1) - d0 + 1)) with (length ds)
    by lia.
  destruct (ds !! i) as [r|] eqn:Hr.
  - rewrite lookup_seq_lt by (by eapply lookup_lt_Some). simpl.
    rewrite <-(Hdates i r Hr). f_equal. by eapply row_of_date_observed.
  - rewrite lookup_seq_ge; [done|]. by apply lookup_ge_None.
Qed.

Lemma Total_Sales_at_observed (ds : list Df.row) k :
  Total_Sales_at (observed_row <$> ds) k = Df.Total_Sales <$> ds !! k.
Proof.
  unfold Total_Sales_at. rewrite list_lookup_fmap. by destruct (ds !! k).
Qed.

(** Without gaps the filler rewrites the last row only, and with the delta
    it already had. *)
Lemma fill_gaps_all_observed_Daily (df : list Loaded.row) :
  Final.Daily_Sales <$> fill_gaps (observed_row <$> add_daily_sales df) =
  Df.Daily_Sales <$> add_daily_sales df.
Proof.
  set (ds := add_daily_sales df). apply list_eq; intros j.
  rewrite !list_lookup_fmap.
  destruct (ds !! j) as [r|] eqn:Hr; simpl.
  2:{ rewrite (lookup_ge_None_2 (fill_gaps _)); [done|].
      rewrite fill_gaps_length, length_fmap. by apply lookup_ge_None. }
  pose proof (lookup_lt_Some _ _ _ Hr) as Hlen.
  assert (Hobs : (observed_row <$> ds) !! j = Some (observed_row r)).
  { by rewrite list_lookup_fmap, Hr. }
  destruct j as [|j].
  - rewrite fill_gaps_lookup, fill_loop_frame, Hobs; [done|].
    intros s e sv ev _ ? _. lia.
  - destruct (lookup_lt_is_Some_2 ds j) as [p Hp]; [lia|].
    assert (Hprev : Total_Sales_at (observed_row <$> ds) (S j - 1)
                    = Some (Df.Total_Sales p)).
    { rewrite Total_Sales_at_observed. replace (S j - 1) with j by lia.
      by rewrite Hp. }
    destruct (decide (S j + 1 < length ds)) as [Hmid|Hlast].
    + erewrite fill_gaps_interior_observed; [done|lia| |exact Hobs|exact Hprev].
      by rewrite length_fmap.
    + rewrite fill_gaps_lookup.
      rewrite (fill_loop_written _ j (S j) (Df.Total_Sales p) (Df.Total_Sales r));
        [|split_and!|lia|right].
      * rewrite Hobs. simpl. replace (S j - j) with 1 by lia.
        rewrite avg_delta_one. f_equal.
        subst ds. rewrite add_daily_sales_lookup in Hr, Hp.
        destruct (df !! S j) as [lr|]; [|done].
        destruct (df !! j) as [lp|]; [|done].
        simpl in Hr, Hp. injection Hr as <-. injection Hp as <-. done.
      * lia.
      * by rewrite Total_Sales_at_observed, Hp.
      * by rewrite Total_Sales_at_observed, Hr.
      * intros k ?. lia.
      * rewrite length_fmap. lia.
Qed.

(** C8.  On a frame whose dates are consecutive days and on which no day is
    flagged, the deltas the program returns are the differences of
    consecutive cumulative totals, exactly; the first day, which has no day
    before it, has 0.  The totals are at most 2^52 in magnitude, so that
    the float64 difference of line 24 and the int64 conversion of line 56
    are exact. *)
Theorem roundtrip_without_gaps_and_flags {rng}
    (fp : contamination → option Z → rng → list Feature.row → nat → Z)
    (df : list Loaded.row) c g (d0 : Z) :
  df ≠ [] →
  (∀ i r, df !! i = Some r → Loaded.Date r = (d0 + Z.of_nat i)%Z) →
  (∀ r, r ∈ df → (Z.abs (Loaded.Total_Sales r) ≤ 2 ^ 52)%Z) →
  (∀ filled, gap_filled df = Some filled →
     ∀ i, anomalies fp c g filled !! i ≠ Some true) →
  ∃ out,
    process_sales_data fp df c g = Some out ∧
    length (df_final out) = length df ∧
    (∀ row, df_final out !! 0 = Some row → Final.Daily_Sales row = 0%Z) ∧
    ∀ i prev cur row,
      df !! i = Some prev → df !! S i = Some cur →
      df_final out !! S i = Some row →
      Final.Daily_Sales row
      = (Loaded.Total_Sales cur - Loaded.Total_Sales prev)%Z.
Proof.
  intros Hne Hdates _ Hflags.
  assert (Hcal : full_calendar (add_daily_sales df)
                 = Some (observed_row <$> add_daily_sales df)).
  { apply (full_calendar_consecutive _ d0); [by apply add_daily_sales_nonempty|].
    intros i r. rewrite add_daily_sales_lookup.
    destruct (df !! i) as [lr|] eqn:E; [|done]. simpl. intros [= <-]. simpl.
    by apply Hdates. }
  assert (Hfilled : gap_filled df
                    = Some (fill_gaps (observed_row <$> add_daily_sales df))).
  { unfold gap_filled. by rewrite Hcal. }
  specialize (Hflags _ Hfilled).
  eexists. split; [unfold process_sales_data; rewrite Hfilled; reflexivity|].
  simpl. rewrite correct_unflagged by done.
  assert (Hdaily : ∀ i row,
    fill_gaps (observed_row <$> add_daily_sales df) !! i = Some row →
    Df.Daily_Sales <$> add_daily_sales df !! i = Some (Final.Daily_Sales row)).
  { intros i row Hrow. rewrite <-list_lookup_fmap, <-fill_gaps_all_observed_Daily.
    by rewrite list_lookup_fmap, Hrow. }
  split_and!.
  - rewrite fill_gaps_length, length_fmap.
    rewrite <-(length_fmap Df.Date), add_daily_sales_Date. by rewrite length_fmap.
  - intros row Hrow%Hdaily. rewrite add_daily_sales_lookup in Hrow.
    destruct (df !! 0); [|done]. simpl in Hrow. congruence.
  - intros i prev cur row Hprev Hcur Hrow%Hdaily.
    rewrite add_daily_sales_lookup, Hcur, Hprev in Hrow. simpl in Hrow. congruence.
Qed.

Lemma roundtrip_without_gaps_and_flags_witness :
  ∃ out,
    run all_inliers [obs 120 2; obs 100 1; obs 150 3; obs 155 4] auto_mode ()
      = Some out ∧
    Final.Daily_Sales <$> df_final out = [0; 20; 30; 5]%Z.
Proof.
  destruct (roundtrip_without_gaps_and_flags all_inliers
              (load_data [obs 120 2; obs 100 1; obs 150 3; obs 155 4])
              auto_mode () 1)
    as (out & Hrun & Hlen & H0 & Hdiff).
  - done.
  - intros [|[|[|[|i]]]] r; simpl; intros [= <-]; reflexivity.
  - intros r Hr.
    repeat (apply elem_of_cons in Hr as [->|Hr]); [simpl; lia..|].
    by apply elem_of_nil in Hr.
  - intros filled [= <-] [|[|[|[|i]]]]; vm_compute; discriminate.
  - exists out. split; [exact Hrun|].
    destruct (df_final out) as [|r0 [|r1 [|r2 [|r3 [|r4 rows]]]]];
      try discriminate Hlen.
    simpl. rewrite (H0 r0 eq_refl).
    rewrite (Hdiff 0 _ _ r1 eq_refl eq_refl eq_refl).
    rewrite (Hdiff 1 _ _ r2 eq_refl eq_refl eq_refl).
    rewrite (Hdiff 2 _ _ r3 eq_refl eq_refl eq_refl).
    reflexivity.
Defined.

(** C6 fails on a file that is not sorted.  With the lines
    [(110, 1/2), (100, 1/1)] the row labelled 0 is 1/2, so line 26 notes 1/2
    and leaves 1/1, the first calendar day, noted [Delta]; unless the forest
    flags that day the program returns it so, with delta 0. *)
Theorem first_day_of_unsorted_file_noted_Delta {rng}
    (fp : contamination → option Z → rng → list Feature.row → nat → Z) c g :
  (∀ X, fp c (Some 42%Z) g X 0 ≠ (-1)%Z) →
  ∃ out,
    run fp [obs 110 2; obs 100 1] c g = Some out ∧
    df_final out !! 0 =
    Some {| Final.Date := 1; Final.Total_Sales := Some 100%Z;
            Final.Daily_Sales := 0; Final.Notes := Delta |}.
Proof.
  intros Hfp.
  assert (Hfilled : gap_filled (load_data [obs 110 2; obs 100 1]) =
                    Some [Final.Build_row 1 (Some 100%Z) 0 Delta;
                          Final.Build_row 2 (Some 110%Z) 10 Assumed])
    by reflexivity.
  unfold run, process_sales_data. rewrite Hfilled.
  eexists. split; [reflexivity|].
  cbn [df_final mbind option_bind]. rewrite correct_lookup.
  cbn [lookup list_lookup fmap option_fmap option_map].
  f_equal. apply corrected_row_unflagged.
  erewrite anomalies_lookup by reflexivity.
  by rewrite bool_decide_eq_false_2 by apply Hfp.
Qed.

Lemma first_day_of_unsorted_file_noted_Delta_witness :
  ∃ out,
    run all_inliers [obs 110 2; obs 100 1] (fraction (1 # 100)) () = Some out ∧
    Final.Notes <$> df_final out !! 0 = Some Delta.
Proof.
  destruct (first_day_of_unsorted_file_noted_Delta all_inliers
              (fraction (1 # 100)) ()) as (out & Hrun & Hrow).
  - intros X. unfold all_inliers. lia.
  - exists out. split; [exact Hrun|]. by rewrite Hrow.
Defined.

(** *** When the first calendar day is noted [Assumed]

    The delta of the first calendar day is 0 on every file.  Its note is
    [Assumed] exactly when the first line of the file carries the earliest
    date, or when the detector flags the day. *)

Lemma drop_duplicates_from_elem (seen : list Z) (df : list Loaded.row) x :
  x ∈ drop_duplicates_from seen df → x ∈ df.
Proof.
  revert seen. induction df as [|r df IH]; intros seen; simpl; [done|].
  case_bool_decide.
  - intros ?%IH. by right.
  - intros [->|?%IH]%elem_of_cons; [by left|by right].
Qed.

Lemma NoDup_fmap_elem_inj {A B} (f : A → B) (l : list A) x y :
  NoDup (f <$> l) → x ∈ l → y ∈ l → f x = f y → x = y.
Proof.
  intros Hnd [i Hi]%list_elem_of_lookup_1 [j Hj]%list_elem_of_lookup_1 Heq.
  assert (i = j) as ->.
  { eapply NoDup_alt; [exact Hnd| |].
    - by rewrite list_lookup_fmap, Hi.
    - by rewrite list_lookup_fmap, Hj, Heq. }
  congruence.
Qed.

Lemma load_data_head_min (raw : list Raw.row) (r0 : Loaded.row) :
  head (load_data raw) = Some r0 →
  Series_min (Loaded.Date <$> load_data raw) = Some (Loaded.Date r0).
Proof.
  intros Hhead.
  pose proof (StronglySorted_merge_sort Date_le
                (drop_duplicates (read_csv raw))) as Hsorted.
  fold (sort_values (drop_duplicates (read_csv raw))) in Hsorted.
  fold (load_data raw) in Hsorted.
  destruct (load_data raw) as [|x l]; [done|].
  injection Hhead as ->.
  apply StronglySorted_cons in Hsorted as [Hall _].
  apply Series_min_unique; [rewrite fmap_cons; by left|].
  intros d (y & -> & [->|Hy]%elem_of_cons)%list_elem_of_fmap; [done|].
  rewrite Forall_forall in Hall. by apply Hall.
Qed.

Lemma load_data_head_index (raw : list Raw.row) (r0 : Loaded.row)
    (first : Raw.row) :
  head (load_data raw) = Some r0 → head raw = Some first →
  Loaded.index r0 = 0 ↔ Raw.Date first = Loaded.Date r0.
Proof.
  intros Hhead Hfirst.
  assert (Hin : r0 ∈ load_data raw).
  { destruct (load_data raw); [done|]. injection Hhead as ->. by left. }
  destruct raw as [|x raw]; [done|]. injection Hfirst as ->.
  split.
  - intros Hidx. rewrite load_data_Permutation in Hin.
    apply drop_duplicates_from_elem, list_elem_of_lookup_1 in Hin as [i Hi].
    unfold read_csv in Hi. rewrite list_lookup_imap in Hi.
    destruct ((first :: raw) !! i) as [ri|] eqn:E; [|done].
    simpl in Hi. injection Hi as <-. simpl in Hidx. subst i.
    simpl in E. by injection E as <-.
  - intros Hdate.
    set (row0 := {| Loaded.index := 0;
                    Loaded.Total_Sales := Raw.Total_Sales first;
                    Loaded.Date := Raw.Date first |}).
    assert (Hrow0 : row0 ∈ load_data (first :: raw)).
    { rewrite load_data_Permutation. unfold drop_duplicates, read_csv.
      rewrite imap_cons. simpl. by left. }
    assert (r0 = row0) as ->; [|done].
    eapply (NoDup_fmap_elem_inj Loaded.Date); [apply load_data_NoDup|done..].
Qed.

Lemma full_calendar_first_row (ds : list Df.row) (r0 : Df.row) t :
  head ds = Some r0 →
  Series_min (Df.Date <$> ds) = Some (Df.Date r0) →
  full_calendar ds = Some t →
  t !! 0 = Some (observed_row r0).
Proof.
  intros Hhead Hmin. unfold full_calendar, reindex. rewrite Hmin. simpl.
  destruct (Series_max (Df.Date <$> ds)) as [dmax|] eqn:Hmax; [|done]. simpl.
  case_decide; [|done]. intros [= <-].
  apply Series_max_spec in Hmax as [_ Hmax].
  destruct ds as [|x ds]; [done|]. injection Hhead as ->.
  assert (Hle : (Df.Date r0 ≤ dmax)%Z).
  { apply Hmax. rewrite fmap_cons. by left. }
  unfold date_range. rewrite !list_lookup_fmap, lookup_seq_lt by lia. simpl.
  unfold row_of_date. simpl.
  by rewrite bool_decide_eq_true_2 by lia.
Qed.

Lemma fill_gaps_first_row t : fill_gaps t !! 0 = finalize <$> t !! 0.
Proof.
  rewrite fill_gaps_lookup, fill_loop_frame; [done|].
  intros s e sv ev _ ? _. lia.
Qed.

Lemma first_calendar_day {rng}
    (fp : contamination → option Z → rng → list Feature.row → nat → Z)
    (raw : list Raw.row) (first : Raw.row) c g :
  head raw = Some first →
  ∃ out filled min_date row,
    run fp raw c g = Some out ∧
    gap_filled (load_data raw) = Some filled ∧
    Series_min (Raw.Date <$> raw) = Some min_date ∧
    df_final out !! 0 = Some row ∧
    Final.Date row = min_date ∧
    Final.Daily_Sales row = 0%Z ∧
    (Final.Notes row = Assumed ↔
     Raw.Date first = min_date ∨ anomalies fp c g filled !! 0 = Some true).
Proof.
  intros Hfirst.
  assert (Hne : raw ≠ []) by (by destruct raw).
  destruct (head (load_data raw)) as [r0|] eqn:Hhead.
  2:{ apply load_data_nonempty in Hne. by destruct (load_data raw). }
  pose proof (load_data_head_min raw r0 Hhead) as Hmin.
  pose proof (load_data_head_index raw r0 first Hhead Hfirst) as Hidx.
  destruct (full_calendar_Some (add_daily_sales (load_data raw)))
    as (dmin & dmax & Hmin' & _ & _ & Hcal).
  { by apply add_daily_sales_nonempty, load_data_nonempty. }
  { rewrite add_daily_sales_Date. apply load_data_NoDup. }
  rewrite add_daily_sales_Date, Hmin in Hmin'. injection Hmin' as <-.
  set (d0 := {| Df.index := Loaded.index r0;
                Df.Total_Sales := Loaded.Total_Sales r0;
                Df.Date := Loaded.Date r0;
                Df.Daily_Sales := 0;
                Df.Notes := if bool_decide (Loaded.index r0 = 0) then Assumed
                            else Delta |}).
  assert (Hd0 : head (add_daily_sales (load_data raw)) = Some d0).
  { rewrite head_lookup, add_daily_sales_lookup, <-head_lookup, Hhead. done. }
  set (t := row_of_date (add_daily_sales (load_data raw))
              <$> date_range (Loaded.Date r0) dmax) in *.
  assert (Hrow0 : t !! 0 = Some (observed_row d0)).
  { apply (full_calendar_first_row (add_daily_sales (load_data raw)));
      [done| |done].
    by rewrite add_daily_sales_Date. }
  assert (Hfilled0 : fill_gaps t !! 0 = Some (finalize (observed_row d0))).
  { by rewrite fill_gaps_first_row, Hrow0. }
  eexists _, (fill_gaps t), (Loaded.Date r0), _. split_and!.
  - unfold run, process_sales_data, gap_filled. rewrite Hcal. reflexivity.
  - unfold gap_filled. by rewrite Hcal.
  - apply Series_min_spec in Hmin as [Hin Hall].
    apply Series_min_unique; [by apply load_data_Date_elem|].
    intros x Hx. by apply Hall, load_data_Date_elem.
  - simpl. by rewrite correct_lookup, Hfilled0.
  - unfold corrected_row. simpl. by destruct (default false _).
  - unfold corrected_row.
    destruct (anomalies fp c g (fill_gaps t) !! 0) as [[]|] eqn:Hflag;
      simpl; [reflexivity| |];
      by rewrite (round_half_even_integer _ 0) by reflexivity.
  - unfold corrected_row. rewrite <-Hidx.
    destruct (anomalies fp c g (fill_gaps t) !! 0) as [[]|] eqn:Hflag; simpl.
    + split; [by right|done].
    + case_bool_decide; split; try done; try (by left); intros [?|?]; done.
    + case_bool_decide; split; try done; try (by left); intros [?|?]; done.
Qed.

(** ** Observed days after an observed day *)

Lemma gap_filled_inv (df : list Loaded.row) (filled : list Final.row) :
  gap_filled df = Some filled →
  ∃ dmin dmax,
    Series_min (Loaded.Date <$> df) = Some dmin ∧
    Series_max (Loaded.Date <$> df) = Some dmax ∧
    NoDup (Df.Date <$> add_daily_sales df) ∧
    filled = fill_gaps (row_of_date (add_daily_sales df)
                          <$> date_range dmin dmax).
Proof.
  unfold gap_filled, full_calendar, reindex.
  rewrite add_daily_sales_Date.
  destruct (Series_min (Loaded.Date <$> df)) as [dmin|]; [|done].
  destruct (Series_max (Loaded.Date <$> df)) as [dmax|]; [|done]. simpl.
  case_decide as Hnd; [|done]. simpl. intros [= <-].
  by exists dmin, dmax.
Qed.

(** C5, as the program has it.  A line of the file whose previous calendar
    day is the line before it leaves the gap filler with its cumulative
    total and with the delta of line 24, on the last day of the calendar
    too.  Before the last day it keeps the note of lines 25-26; on the last
    day, where the outer loop fires whatever the total, the note is
    [Assumed].  The totals of the two days are at most 2^52 in magnitude, so
    that line 24 and line 51 are exact in float64. *)
Theorem gap_filler_keeps_observed_delta (df : list Loaded.row)
    (filled : list Final.row) i (p r : Loaded.row) :
  gap_filled df = Some filled →
  df !! i = Some p → df !! S i = Some r →
  Loaded.Date r = (Loaded.Date p + 1)%Z →
  (Z.abs (Loaded.Total_Sales p) ≤ 2 ^ 52)%Z →
  (Z.abs (Loaded.Total_Sales r) ≤ 2 ^ 52)%Z →
  ∃ j row,
    filled !! j = Some row ∧
    Final.Date row = Loaded.Date r ∧
    Final.Total_Sales row = Some (Loaded.Total_Sales r) ∧
    Final.Daily_Sales row
    = (Loaded.Total_Sales r - Loaded.Total_Sales p)%Z ∧
    (S j < length filled →
     Final.Notes row
     = if bool_decide (Loaded.index r = 0) then Assumed else Delta) ∧
    (S j = length filled → Final.Notes row = Assumed).
Proof.
  intros Hfilled Hp Hr Hnext _ _.
  apply gap_filled_inv in Hfilled as (dmin & dmax & Hmin & Hmax & Hnd & ->).
  set (ds := add_daily_sales df) in *.
  set (t := row_of_date ds <$> date_range dmin dmax).
  assert (Hdp : ∃ dp, ds !! i = Some dp ∧ Df.Date dp = Loaded.Date p ∧
                      Df.Total_Sales dp = Loaded.Total_Sales p).
  { unfold ds. rewrite add_daily_sales_lookup, Hp. simpl. eauto. }
  destruct Hdp as (dp & Hdp & Hdp_date & Hdp_total).
  assert (Hdr : ∃ dr, ds !! S i = Some dr ∧ Df.Date dr = Loaded.Date r ∧
                      Df.Total_Sales dr = Loaded.Total_Sales r ∧
                      Df.Daily_Sales dr
                      = (Loaded.Total_Sales r - Loaded.Total_Sales p)%Z ∧
                      Df.Notes dr
                      = if bool_decide (Loaded.index r = 0) then Assumed
                        else Delta).
  { unfold ds. rewrite add_daily_sales_lookup, Hr, Hp. simpl. eauto 10. }
  destruct Hdr as (dr & Hdr & Hdr_date & Hdr_total & Hdr_daily & Hdr_notes).
  apply Series_min_spec in Hmin as [_ Hmin_le].
  apply Series_max_spec in Hmax as [_ Hmax_le].
  assert (Hp_in : Loaded.Date p ∈ Loaded.Date <$> df).
  { apply list_elem_of_fmap_2. by eapply list_elem_of_lookup_2. }
  assert (Hr_in : Loaded.Date r ∈ Loaded.Date <$> df).
  { apply list_elem_of_fmap_2. by eapply list_elem_of_lookup_2. }
  apply Hmin_le in Hp_in. apply Hmax_le in Hr_in.
  set (j := Z.to_nat (Loaded.Date r - dmin)).
  assert (Hlen : length t = Z.to_nat (dmax - dmin + 1)).
  { unfold t. by rewrite length_fmap, date_range_length. }
  assert (Htj : t !! j = Some (observed_row dr)).
  { unfold t. rewrite list_lookup_fmap, date_range_lookup_lt by lia. simpl.
    replace (dmin + Z.of_nat j)%Z with (Df.Date dr) by lia.
    f_equal. by eapply row_of_date_observed. }
  assert (Htp : t !! (j - 1) = Some (observed_row dp)).
  { unfold t. rewrite list_lookup_fmap, date_range_lookup_lt by lia. simpl.
    replace (dmin + Z.of_nat (j - 1))%Z with (Df.Date dp) by lia.
    f_equal. by eapply row_of_date_observed. }
  assert (Hprev : Total_Sales_at t (j - 1) = Some (Df.Total_Sales dp)).
  { unfold Total_Sales_at. by rewrite Htp. }
  assert (Hcur : Total_Sales_at t j = Some (Df.Total_Sales dr)).
  { unfold Total_Sales_at. by rewrite Htj. }
  exists j. rewrite fill_gaps_length.
  destruct (decide (S j < length t)) as [Hint|Hlast].
  - eexists. split.
    { apply (fill_gaps_interior_observed t j dr (Df.Total_Sales dp));
        [lia|lia|done|done]. }
    simpl. split_and!; [done|by f_equal|done|done|lia].
  - assert (Hj : j = length t - 1) by lia.
    eexists. split.
    { rewrite fill_gaps_lookup.
      rewrite (fill_loop_written t (j - 1) j (Df.Total_Sales dp)
                 (Df.Total_Sales dr)), Htj; [done| |lia|by right].
      split_and!; [lia|done|done|]. intros k Hk. lia. }
    simpl. replace (j - (j - 1)) with 1 by lia. rewrite avg_delta_one.
    split_and!; [done|by f_equal|lia|lia|done].
Qed.

(** The file [(100, 1/1), (110, 1/2), (125, 1/3)]: 1/2 comes out with the
    delta 10 and the note [Delta], the last day 1/3 with the delta 15 and
    the note [Assumed]. *)
Lemma gap_filler_keeps_observed_delta_witness :
  ∃ filled,
    gap_filled (load_data [obs 100 1; obs 110 2; obs 125 3]) = Some filled ∧
    (∃ j row,
       filled !! j = Some row ∧ Final.Date row = 2%Z ∧
       Final.Total_Sales row = Some 110%Z ∧
       Final.Daily_Sales row = 10%Z ∧
       (S j < length filled → Final.Notes row = Delta) ∧
       (S j = length filled → Final.Notes row = Assumed)) ∧
    (∃ j row,
       filled !! j = Some row ∧ Final.Date row = 3%Z ∧
       Final.Total_Sales row = Some 125%Z ∧
       Final.Daily_Sales row = 15%Z ∧
       (S j < length filled → Final.Notes row = Delta) ∧
       (S j = length filled → Final.Notes row = Assumed)).
Proof.
  eexists. split; [vm_compute; reflexivity|]. split.
  - apply (gap_filler_keeps_observed_delta
             (load_data [obs 100 1; obs 110 2; obs 125 3]) _ 0
             (Loaded.Build_row 0 100 1) (Loaded.Build_row 1 110 2));
      [vm_compute; reflexivity|reflexivity|reflexivity|reflexivity
      |simpl; lia|simpl; lia].
  - apply (gap_filler_keeps_observed_delta
             (load_data [obs 100 1; obs 110 2; obs 125 3]) _ 1
             (Loaded.Build_row 1 110 2) (Loaded.Build_row 2 125 3));
      [vm_compute; reflexivity|reflexivity|reflexivity|reflexivity
      |simpl; lia|simpl; lia].
Defined.

(** C5 as the specification words it fails twice on the file
    [(100, 1/1), (130, 1/3), (140, 1/4)].  The observed day 1/3 ends a gap:
    lines 24-26 give it the delta 30, the gap filler leaves it with 15.  The
    observed day 1/4 follows an observed day and keeps its delta 10, but it
    is the last day and the gap filler notes it [Assumed]. *)
Lemma observed_day_keeps_delta_and_tag_counterexample :
  ¬ (∀ (df : list Loaded.row) (filled : list Final.row) (i : nat) (r : Df.row),
       gap_filled df = Some filled →
       0 < i →
       add_daily_sales df !! i = Some r →
       ∃ f, f ∈ filled ∧
            Final.Date f = Df.Date r ∧
            Final.Daily_Sales f = Df.Daily_Sales r) ∧
  ¬ (∀ (df : list Loaded.row) (filled : list Final.row) (i : nat)
       (p r : Df.row),
       gap_filled df = Some filled →
       add_daily_sales df !! i = Some p →
       add_daily_sales df !! S i = Some r →
       Df.Date r = (Df.Date p + 1)%Z →
       ∃ f, f ∈ filled ∧
            Final.Date f = Df.Date r ∧
            Final.Daily_Sales f = Df.Daily_Sales r ∧
            Final.Notes f = Delta).
Proof.
  split.
  - intros H.
    destruct (H (load_data [obs 100 1; obs 130 3; obs 140 4]) _ 1 _
                eq_refl ltac:(lia) eq_refl) as (f & Hin & Hdate & Hdaily).
    vm_compute in Hin.
    repeat (apply elem_of_cons in Hin as [->|Hin]); try discriminate.
    by apply elem_of_nil in Hin.
  - intros H.
    destruct (H (load_data [obs 100 1; obs 130 3; obs 140 4]) _ 1 _ _
                eq_refl eq_refl eq_refl eq_refl)
      as (f & Hin & Hdate & Hdaily & Hnote).
    vm_compute in Hin.
    repeat (apply elem_of_cons in Hin as [->|Hin]); try discriminate.
    by apply elem_of_nil in Hin.
Qed.

(** * Further properties *)

(** ** load_data *)

Lemma drop_duplicates_from_first (seen : list Z) (df : list Loaded.row) r :
  r ∈ drop_duplicates_from seen df →
  ∃ i, df !! i = Some r ∧ (Loaded.Date r ∉ seen) ∧
       ∀ k x, k < i → df !! k = Some x → Loaded.Date x ≠ Loaded.Date r.
Proof.
  revert seen. induction df as [|y df IH]; intros seen; simpl.
  { intros []%elem_of_nil. }
  case_bool_decide as Hseen.
  - intros (i & Hi & Hr & Hbefore)%IH. exists (S i). split_and!; [done..|].
    intros [|k] x Hk; simpl; [|apply Hbefore; lia].
    intros [= <-] Heq. apply Hr. by rewrite <-Heq.
  - intros [->|(i & Hi & Hr & Hbefore)%IH]%elem_of_cons.
    + exists 0. split_and!; [done..|]. intros k x ?. lia.
    + apply not_elem_of_cons in Hr as [Hne Hr].
      exists (S i). split_and!; [done..|].
      intros [|k] x Hk; simpl; [|apply Hbefore; lia].
      by intros [= <-].
Qed.

Lemma read_csv_lookup (raw : list Raw.row) i r :
  read_csv raw !! i = Some r ↔
  Loaded.index r = i ∧
  raw !! i = Some {| Raw.Total_Sales := Loaded.Total_Sales r;
                     Raw.Date := Loaded.Date r |}.
Proof.
  unfold read_csv. rewrite list_lookup_imap.
  destruct (raw !! i) as [[total date]|]; simpl; [|split; [done|by intros [_ ?]]].
  split.
  - by intros [= <-].
  - destruct r as [idx total' date']; simpl. intros [-> Heq].
    by injection Heq as -> ->.
Qed.

(** X1.  The frame [load_data] returns is in strictly increasing order of
    date: sorted, and no date twice. *)
Theorem load_data_strictly_increasing (raw : list Raw.row) i j ri rj :
  i < j → load_data raw !! i = Some ri → load_data raw !! j = Some rj →
  (Loaded.Date ri < Loaded.Date rj)%Z.
Proof.
  intros Hij Hi Hj.
  pose proof (StronglySorted_merge_sort Date_le
                (drop_duplicates (read_csv raw))) as Hsorted.
  fold (sort_values (drop_duplicates (read_csv raw))) in Hsorted.
  fold (load_data raw) in Hsorted.
  assert (Hle : (Loaded.Date ri ≤ Loaded.Date rj)%Z).
  { revert i j Hij Hi Hj.
    induction Hsorted as [|x l Hl IH Hall]; intros i j Hij Hi Hj; [done|].
    destruct j as [|j]; [lia|]. simpl in Hj.
    destruct i as [|i]; simpl in Hi.
    - injection Hi as ->. rewrite Forall_forall in Hall.
      apply Hall. by eapply list_elem_of_lookup_2.
    - apply (IH i j); [lia|done..]. }
  destruct (decide (Loaded.Date ri = Loaded.Date rj)) as [Heq|]; [|lia].
  assert (i = j); [|lia].
  eapply NoDup_alt; [apply (load_data_NoDup raw)| |].
  - by rewrite list_lookup_fmap, Hi.
  - by rewrite list_lookup_fmap, Hj, Heq.
Qed.

Lemma load_data_strictly_increasing_witness :
  load_data [obs 130 3; obs 100 1; obs 125 3; obs 180 2]
  = [Loaded.Build_row 1 100 1; Loaded.Build_row 3 180 2;
     Loaded.Build_row 0 130 3] ∧
  (Loaded.Date (Loaded.Build_row 1 100 1)
   < Loaded.Date (Loaded.Build_row 3 180 2))%Z.
Proof.
  split; [reflexivity|].
  apply (load_data_strictly_increasing
           [obs 130 3; obs 100 1; obs 125 3; obs 180 2] 0 1);
    [lia|reflexivity|reflexivity].
Defined.

(** X2.  [keep="first"]: a row of the loaded frame is the line of the file
    that its label names, and no earlier line of the file carries its
    date. *)
Theorem load_data_keeps_first_line (raw : list Raw.row) (r : Loaded.row) :
  r ∈ load_data raw →
  raw !! Loaded.index r
  = Some {| Raw.Total_Sales := Loaded.Total_Sales r;
            Raw.Date := Loaded.Date r |} ∧
  ∀ k line, k < Loaded.index r → raw !! k = Some line →
            Raw.Date line ≠ Loaded.Date r.
Proof.
  rewrite load_data_Permutation.
  intros (i & Hi & _ & Hbefore)%drop_duplicates_from_first.
  apply read_csv_lookup in Hi as [<- Hline]. split; [done|].
  intros k line Hk Hkline Heq.
  apply (Hbefore k {| Loaded.index := k;
                      Loaded.Total_Sales := Raw.Total_Sales line;
                      Loaded.Date := Raw.Date line |}); [done| |done].
  apply read_csv_lookup. by destruct line.
Qed.

Lemma load_data_keeps_first_line_witness :
  [obs 130 3; obs 100 1; obs 125 3] !! 0 = Some (obs 130 3) ∧
  ∀ k line, k < 0 → [obs 130 3; obs 100 1; obs 125 3] !! k = Some line →
            Raw.Date line ≠ 3%Z.
Proof.
  apply (load_data_keeps_first_line [obs 130 3; obs 100 1; obs 125 3]
           (Loaded.Build_row 0 130 3)).
  vm_compute. right. left.
Defined.

(** X3.  The loaded frame has exactly the dates of the file: a date is in
    the frame if and only if some line of the file carries it, and then
    exactly one row of the frame carries it. *)
Theorem load_data_one_row_per_date (raw : list Raw.row) (d : Z) :
  d ∈ Raw.Date <$> raw ↔
  ∃ r, r ∈ load_data raw ∧ Loaded.Date r = d ∧
       ∀ r', r' ∈ load_data raw → Loaded.Date r' = d → r' = r.
Proof.
  rewrite <-load_data_Date_elem. split.
  - intros (r & -> & Hr)%list_elem_of_fmap. exists r. split_and!; [done..|].
    intros r' Hr' Heq.
    by eapply (NoDup_fmap_elem_inj Loaded.Date); [apply load_data_NoDup|..].
  - intros (r & Hr & <- & _). by apply list_elem_of_fmap_2.
Qed.

(** ** The corrector *)

Lemma linear_between (y0 y1 k d lo hi : Z) :
  (0 < k < d)%Z → (lo ≤ y0 ≤ hi)%Z → (lo ≤ y1 ≤ hi)%Z →
  (inject_Z lo <= inject_Z (y1 - y0) / inject_Z d * inject_Z k + inject_Z y0)%Q ∧
  (inject_Z (y1 - y0) / inject_Z d * inject_Z k + inject_Z y0 <= inject_Z hi)%Q.
Proof.
  intros Hk H0 H1. destruct d as [|p|p]; try lia.
  unfold Qle, Qdiv, Qmult, Qplus, Qinv, inject_Z; simpl.
  rewrite ?Pos.mul_1_r, ?Z.mul_1_r.
  split; nia.
Qed.

Lemma round_half_even_bounds (q : Q) (lo hi : Z) :
  (inject_Z lo <= q)%Q → (q <= inject_Z hi)%Q →
  (lo ≤ round_half_even q ≤ hi)%Z.
Proof.
  intros Hlo Hhi. unfold round_half_even.
  assert (Hlf : (lo ≤ Qfloor q)%Z).
  { rewrite <-(Qfloor_Z lo). by apply Qfloor_resp_le. }
  assert (Hfh : (Qfloor q ≤ hi)%Z).
  { rewrite Zle_Qle. apply (Qle_trans _ q); [apply Qfloor_le|done]. }
  assert (Hup : (0 < q - inject_Z (Qfloor q))%Q → (Qfloor q + 1 ≤ hi)%Z).
  { intros Hpos. assert (Hlt : (inject_Z (Qfloor q) < inject_Z hi)%Q).
    { apply (Qlt_le_trans _ q); [|done].
      apply (Qplus_lt_l _ _ (- inject_Z (Qfloor q))).
      rewrite Qplus_opp_r. exact Hpos. }
    rewrite <-Zlt_Qlt in Hlt. lia. }
  destruct (Qcompare_spec (q - inject_Z (Qfloor q)) (1 # 2)) as [Heq|Hlt|Hgt].
  - destruct (Z.even (Qfloor q)); [lia|].
    split; [lia|]. apply Hup. rewrite Heq. reflexivity.
  - lia.
  - split; [lia|]. apply Hup. apply (Qlt_trans _ (1 # 2)); [reflexivity|done].
Qed.

Lemma last_valid_inv (col : list (option Z)) i x0 y0 :
  last_valid col i = Some (x0, y0) → x0 < i ∧ col !! x0 = Some (Some y0).
Proof.
  induction i as [|i IH]; simpl; [done|].
  destruct (col !! i) as [[y|]|] eqn:E.
  - intros [= <- <-]. split; [lia|done].
  - intros [??]%IH. split; [lia|done].
  - intros [??]%IH. split; [lia|done].
Qed.

Lemma first_valid_from_inv j (col : list (option Z)) x1 y1 :
  first_valid_from j col = Some (x1, y1) →
  ∃ n, x1 = j + n ∧ col !! n = Some (Some y1).
Proof.
  revert j. induction col as [|[y|] col IH]; intros j; simpl; [done| |].
  - intros [= <- <-]. exists 0. split; [lia|done].
  - intros (n & -> & Hn)%IH. exists (S n). split; [lia|done].
Qed.

Lemma first_valid_from_Some j (col : list (option Z)) n y :
  col !! n = Some (Some y) →
  (∀ k z, k < n → col !! k ≠ Some (Some z)) →
  first_valid_from j col = Some (j + n, y).
Proof.
  revert j n. induction col as [|[z|] col IH]; intros j n Hn Hnone; [done| |].
  - destruct n as [|n].
    + simpl in Hn. injection Hn as ->. simpl. do 2 f_equal. lia.
    + by destruct (Hnone 0 z ltac:(lia)).
  - destruct n as [|n]; [done|]. simpl in Hn. simpl.
    rewrite (IH (S j) n Hn).
    + do 2 f_equal. lia.
    + intros k w Hk. apply (Hnone (S k) w). lia.
Qed.

Lemma mask_nan_valid (flags : list bool) (daily : list Z) x y :
  mask_nan flags daily !! x = Some (Some y) →
  daily !! x = Some y ∧ default false (flags !! x) = false.
Proof.
  rewrite mask_nan_lookup. destruct (daily !! x) as [d|]; [|done]. simpl.
  destruct (default false (flags !! x)); [done|]. by intros [= ->].
Qed.

(** Every delta the corrector returns is 0 or lies between the deltas of
    two days that are not flagged. *)
Lemma corrected_daily_hull (flags : list bool) (daily : list Z) i v :
  corrected_daily flags daily !! i = Some v →
  v = 0%Z ∨
  ∃ x0 y0 x1 y1,
    (daily !! x0 = Some y0 ∧ default false (flags !! x0) = false) ∧
    (daily !! x1 = Some y1 ∧ default false (flags !! x1) = false) ∧
    (Z.min y0 y1 ≤ v ≤ Z.max y0 y1)%Z.
Proof.
  rewrite corrected_daily_lookup.
  destruct (daily !! i) as [d|] eqn:Hd; [|done]. simpl. intros [= <-].
  destruct (default false (flags !! i)) eqn:Hflag; simpl.
  - destruct (last_valid _ i) as [[x0 y0]|] eqn:Hlast; [|by left].
    apply last_valid_inv in Hlast as [Hx0 [Hy0 Hf0]%mask_nan_valid].
    destruct (first_valid_from _ _) as [[x1 y1]|] eqn:Hfirst; simpl.
    + apply first_valid_from_inv in Hfirst as (n & -> & Hn).
      rewrite lookup_drop in Hn. apply mask_nan_valid in Hn as [Hy1 Hf1].
      right. exists x0, y0, (S i + n), y1. split; [done|]. split; [done|].
      apply round_half_even_bounds;
        apply (linear_between y0 y1 _ _ (Z.min y0 y1) (Z.max y0 y1)); lia.
    + right. exists x0, y0, x0, y0. split; [done|]. split; [done|].
      rewrite (round_half_even_integer _ y0) by reflexivity. lia.
  - right. exists i, d, i, d. split; [done|]. split; [done|].
    rewrite (round_half_even_integer _ d) by reflexivity. lia.
Qed.

Lemma correct_Daily_Sales (rows : list Final.row) (flags : list bool) :
  Final.Daily_Sales <$> correct rows flags
  = corrected_daily flags (Final.Daily_Sales <$> rows).
Proof.
  apply list_eq; intros i.
  rewrite list_lookup_fmap, correct_lookup, corrected_daily_lookup,
    list_lookup_fmap.
  destruct (rows !! i) as [r|]; [|done]. simpl. unfold corrected_row.
  by destruct (default false (flags !! i)).
Qed.

(** X4.  The corrector changes flagged days only: a day that is not flagged
    keeps its delta and its note; a flagged day keeps its date and its
    cumulative total and is noted [Assumed]. *)
Theorem correct_touches_flagged_only (rows : list Final.row)
    (flags : list bool) i r :
  rows !! i = Some r →
  (flags !! i ≠ Some true → correct rows flags !! i = Some r) ∧
  (flags !! i = Some true →
   ∃ r', correct rows flags !! i = Some r' ∧
         Final.Date r' = Final.Date r ∧
         Final.Total_Sales r' = Final.Total_Sales r ∧
         Final.Notes r' = Assumed).
Proof.
  intros Hr. rewrite correct_lookup, Hr. simpl. split.
  - intros Hflag. f_equal. apply corrected_row_unflagged.
    by destruct (flags !! i) as [[]|].
  - intros Hflag. eexists. split; [done|].
    unfold corrected_row. by rewrite Hflag.
Qed.

Lemma correct_touches_flagged_only_witness :
  correct [Final.Build_row 1 (Some 100%Z) 10 Delta;
           Final.Build_row 2 (Some 80%Z) (-20) Delta;
           Final.Build_row 3 (Some 92%Z) 12 Delta]
          [false; true; false] !! 2
  = Some (Final.Build_row 3 (Some 92%Z) 12 Delta).
Proof.
  apply (correct_touches_flagged_only
           [Final.Build_row 1 (Some 100%Z) 10 Delta;
            Final.Build_row 2 (Some 80%Z) (-20) Delta;
            Final.Build_row 3 (Some 92%Z) 12 Delta]
           [false; true; false] 2 _ eq_refl).
  discriminate.
Defined.

(** X5.  A flagged day that lies between two days that are not flagged,
    with only flagged days between them, gets a value that lies between the
    deltas of the two, their common value when they are equal, and is noted
    [Assumed].  The two deltas are at most 2^52 in magnitude, so that the
    float64 column of line 79 holds them exactly. *)
Theorem correct_flagged_day_within_neighbours (rows : list Final.row)
    (flags : list bool) p q i rp rq r :
  p < i < q →
  rows !! p = Some rp → rows !! q = Some rq →
  flags !! p ≠ Some true → flags !! q ≠ Some true →
  (∀ k, p < k < q → flags !! k = Some true) →
  (Z.abs (Final.Daily_Sales rp) ≤ 2 ^ 52)%Z →
  (Z.abs (Final.Daily_Sales rq) ≤ 2 ^ 52)%Z →
  correct rows flags !! i = Some r →
  (Z.min (Final.Daily_Sales rp) (Final.Daily_Sales rq)
   ≤ Final.Daily_Sales r
   ≤ Z.max (Final.Daily_Sales rp) (Final.Daily_Sales rq))%Z ∧
  Final.Notes r = Assumed.
Proof.
  intros Hi Hp Hq Hfp Hfq Hrun _ _.
  assert (Hmask : ∀ x rx, rows !! x = Some rx → flags !! x ≠ Some true →
            mask_nan flags (Final.Daily_Sales <$> rows) !! x
            = Some (Some (Final.Daily_Sales rx))).
  { intros x rx Hx Hfx. rewrite mask_nan_lookup, list_lookup_fmap, Hx. simpl.
    by destruct (flags !! x) as [[]|]. }
  rewrite correct_lookup.
  destruct (rows !! i) as [ri|] eqn:Hri; [|done]. simpl. intros [= <-].
  unfold corrected_row. rewrite (Hrun i Hi). simpl.
  rewrite (last_valid_Some _ i p (Final.Daily_Sales rp)); [|by apply Hmask|lia|].
  2:{ intros k z Hk. apply mask_nan_flagged, Hrun. lia. }
  rewrite (first_valid_from_Some (S i) _ (q - S i) (Final.Daily_Sales rq)).
  - replace (S i + (q - S i)) with q by lia. simpl. split; [|done].
    apply round_half_even_bounds;
      apply (linear_between _ _ _ _
               (Z.min (Final.Daily_Sales rp) (Final.Daily_Sales rq))
               (Z.max (Final.Daily_Sales rp) (Final.Daily_Sales rq))); lia.
  - rewrite lookup_drop. replace (S i + (q - S i)) with q by lia.
    by apply Hmask.
  - intros k z Hk. rewrite lookup_drop. apply mask_nan_flagged, Hrun. lia.
Qed.

(** The scenario of the specification: in [10, 10, -500, 10] the flagged
    -500 becomes 10. *)
Lemma correct_flagged_day_within_neighbours_witness :
  Final.Daily_Sales <$>
    correct [Final.Build_row 1 (Some 10%Z) 10 Assumed;
             Final.Build_row 2 (Some 20%Z) 10 Delta;
             Final.Build_row 3 (Some (-480)%Z) (-500) Delta;
             Final.Build_row 4 (Some (-470)%Z) 10 Assumed]
            [false; false; true; false] !! 2
  = Some 10%Z.
Proof.
  destruct (correct _ _ !! 2) as [r|] eqn:E; [|vm_compute in E; discriminate].
  destruct (correct_flagged_day_within_neighbours
              [Final.Build_row 1 (Some 10%Z) 10 Assumed;
               Final.Build_row 2 (Some 20%Z) 10 Delta;
               Final.Build_row 3 (Some (-480)%Z) (-500) Delta;
               Final.Build_row 4 (Some (-470)%Z) 10 Assumed]
              [false; false; true; false] 1 3 2 _ _ r
              ltac:(lia) eq_refl eq_refl ltac:(discriminate)
              ltac:(discriminate)) as [Hbounds _].
  - intros k Hk. by assert (k = 2) as -> by lia.
  - simpl. lia.
  - simpl. lia.
  - exact E.
  - simpl in Hbounds. simpl. f_equal. lia.
Defined.

(** ** process_sales_data: what every returned frame satisfies *)

Lemma process_sales_data_inv {rng}
    (fp : contamination → option Z → rng → list Feature.row → nat → Z)
    (df : list Loaded.row) c g out :
  process_sales_data fp df c g = Some out →
  ∃ dmin dmax,
    Series_min (Loaded.Date <$> df) = Some dmin ∧
    Series_max (Loaded.Date <$> df) = Some dmax ∧
    NoDup (Loaded.Date <$> df) ∧
    gap_filled df
    = Some (fill_gaps (row_of_date (add_daily_sales df)
                         <$> date_range dmin dmax)) ∧
    df_final out
    = correct
        (fill_gaps (row_of_date (add_daily_sales df) <$> date_range dmin dmax))
        (anomalies fp c g
           (fill_gaps (row_of_date (add_daily_sales df)
                         <$> date_range dmin dmax))).
Proof.
  unfold process_sales_data, gap_filled, full_calendar, reindex.
  rewrite add_daily_sales_Date.
  destruct (Series_min (Loaded.Date <$> df)) as [dmin|]; [|done].
  destruct (Series_max (Loaded.Date <$> df)) as [dmax|]; [|done]. simpl.
  case_decide as Hnd; [|done]. simpl. intros [= <-].
  by exists dmin, dmax.
Qed.

Lemma row_of_date_cases (ds : list Df.row) (d : Z) :
  (∃ r, r ∈ ds ∧ Df.Date r = d ∧ row_of_date ds d = observed_row r) ∨
  ((d ∉ Df.Date <$> ds) ∧ row_of_date ds d = nan_row d).
Proof.
  unfold row_of_date.
  destruct (find _ ds) as [r|] eqn:E.
  - left. apply find_some in E as [Hin Hd]. apply bool_decide_eq_true in Hd.
    exists r. by rewrite list_elem_of_In.
  - right. split; [|done].
    intros (r & -> & Hr)%list_elem_of_fmap.
    apply list_elem_of_In in Hr.
    apply (find_none _ _ E) in Hr. by apply bool_decide_eq_false in Hr.
Qed.

Lemma fill_step_shape t i :
  fill_step t i = t ∨ ∃ a s e, fill_step t i = fill_range t a s e.
Proof. unfold fill_step. repeat case_match; eauto. Qed.

(** A row leaves the loop as it entered it, or with a delta and [Assumed]. *)
Lemma fill_loop_row_cases t j :
  fill_loop t !! j = t !! j ∨ ∃ a, fill_loop t !! j = set_assumed a <$> t !! j.
Proof.
  unfold fill_loop.
  assert (Hgen : ∀ idxs u,
    (u !! j = t !! j ∨ ∃ a, u !! j = set_assumed a <$> t !! j) →
    foldl fill_step u idxs !! j = t !! j ∨
    ∃ a, foldl fill_step u idxs !! j = set_assumed a <$> t !! j).
  { induction idxs as [|i idxs IH]; intros u Hu; [done|]. simpl. apply IH.
    destruct (fill_step_shape u i) as [->|(a & s & e & ->)]; [done|].
    rewrite fill_range_lookup. case_decide; [|done].
    right. exists a. destruct Hu as [->|[a' ->]]; [done|].
    by destruct (t !! j). }
  apply Hgen. by left.
Qed.

Lemma fill_gaps_key t j :
  (λ r, (Final.Date r, Final.Total_Sales r)) <$> fill_gaps t !! j
  = key <$> t !! j.
Proof.
  rewrite fill_gaps_lookup.
  destruct (fill_loop_row_cases t j) as [->|[a ->]]; by destruct (t !! j).
Qed.

Lemma correct_key (rows : list Final.row) (flags : list bool) i :
  (λ r, (Final.Date r, Final.Total_Sales r)) <$> correct rows flags !! i
  = (λ r, (Final.Date r, Final.Total_Sales r)) <$> rows !! i.
Proof.
  rewrite correct_lookup. destruct (rows !! i) as [r|]; [|done]. simpl.
  unfold corrected_row. by destruct (default false (flags !! i)).
Qed.

Lemma correct_keeps_Assumed (rows : list Final.row) (flags : list bool) i r r' :
  rows !! i = Some r → Final.Notes r = Assumed →
  correct rows flags !! i = Some r' → Final.Notes r' = Assumed.
Proof.
  intros Hr Hnote. rewrite correct_lookup, Hr. simpl. intros [= <-].
  unfold corrected_row. by destruct (default false (flags !! i)).
Qed.

Lemma add_daily_sales_elem (df : list Loaded.row) (r : Df.row) :
  r ∈ add_daily_sales df →
  ∃ l, l ∈ df ∧ Loaded.Date l = Df.Date r ∧
       Loaded.Total_Sales l = Df.Total_Sales r.
Proof.
  intros [i Hi]%list_elem_of_lookup_1. rewrite add_daily_sales_lookup in Hi.
  destruct (df !! i) as [l|] eqn:E; [|done]. simpl in Hi. injection Hi as <-.
  exists l. split; [by eapply list_elem_of_lookup_2|done].
Qed.

Lemma df_final_Total_Sales {rng}
    (fp : contamination → option Z → rng → list Feature.row → nat → Z)
    (df : list Loaded.row) c g out i r :
  process_sales_data fp df c g = Some out →
  df_final out !! i = Some r →
  (∀ l, l ∈ df → Loaded.Date l = Final.Date r →
        Final.Total_Sales r = Some (Loaded.Total_Sales l)) ∧
  (Final.Date r ∉ Loaded.Date <$> df → Final.Total_Sales r = None).
Proof.
  intros (dmin & dmax & _ & _ & Hnd & _ & Hout)%process_sales_data_inv Hr.
  assert (Hkey : Some (Final.Date r, Final.Total_Sales r)
                 = key <$> (row_of_date (add_daily_sales df)
                              <$> date_range dmin dmax) !! i).
  { rewrite <-fill_gaps_key.
    rewrite <-(correct_key _ (anomalies fp c g
                 (fill_gaps (row_of_date (add_daily_sales df)
                               <$> date_range dmin dmax)))).
    by rewrite <-Hout, Hr. }
  rewrite list_lookup_fmap in Hkey.
  destruct (date_range dmin dmax !! i) as [d|]; [|done]. simpl in Hkey.
  destruct (row_of_date_cases (add_daily_sales df) d)
    as [(x & Hx & Hxd & Hrow)|[Hd Hrow]];
    rewrite Hrow in Hkey; injection Hkey as Hdate Htotal.
  - split.
    + intros l Hl Hld. rewrite Htotal. f_equal.
      apply add_daily_sales_elem in Hx as (l' & Hl' & Hd' & <-).
      f_equal. eapply (NoDup_fmap_elem_inj Loaded.Date); [done..|]. congruence.
    + intros Hnot. exfalso. apply Hnot. rewrite Hdate.
      rewrite <-add_daily_sales_Date. by apply list_elem_of_fmap_2.
  - split; [|done].
    intros l Hl Hld. exfalso. apply Hd. rewrite add_daily_sales_Date.
    rewrite <-Hdate, <-Hld. by apply list_elem_of_fmap_2.
Qed.

(** X6.  The loaded frame stands for a file in which every line has an
    integer total; the totals are at most 2^53 in magnitude, so that the
    float64 column that [reindex] makes of them holds them exactly.  In the
    frame the program returns, a day then carries a cumulative total exactly
    when the loaded frame has a row for its date, and the total is that
    row's. *)
Theorem output_Total_Sales_is_observed {rng}
    (fp : contamination → option Z → rng → list Feature.row → nat → Z)
    (df : list Loaded.row) c g out i r :
  (∀ l, l ∈ df → (Z.abs (Loaded.Total_Sales l) ≤ 2 ^ 53)%Z) →
  process_sales_data fp df c g = Some out →
  df_final out !! i = Some r →
  (∀ l, l ∈ df → Loaded.Date l = Final.Date r →
        Final.Total_Sales r = Some (Loaded.Total_Sales l)) ∧
  (Final.Date r ∉ Loaded.Date <$> df → Final.Total_Sales r = None).
Proof. intros _. apply df_final_Total_Sales. Qed.

Lemma output_Total_Sales_is_observed_witness :
  ∃ out r,
    process_sales_data all_inliers (load_data [obs 100 1; obs 130 3])
      auto_mode () = Some out ∧
    df_final out !! 2 = Some r ∧
    Final.Total_Sales r = Some 130%Z.
Proof.
  eexists _, _. split; [reflexivity|]. split; [reflexivity|].
  assert (Hbound : ∀ l, l ∈ load_data [obs 100 1; obs 130 3] →
                        (Z.abs (Loaded.Total_Sales l) ≤ 2 ^ 53)%Z).
  { intros l Hl. vm_compute in Hl.
    repeat (apply elem_of_cons in Hl as [->|Hl]); [simpl; lia..|].
    by apply elem_of_nil in Hl. }
  destruct (output_Total_Sales_is_observed all_inliers
              (load_data [obs 100 1; obs 130 3]) auto_mode () _ 2
              (Final.Build_row 3 (Some 130%Z) 15 Assumed) Hbound
              eq_refl eq_refl)
    as [Hobs _].
  apply (Hobs (Loaded.Build_row 1 130 3)); [|reflexivity].
  vm_compute. right. left.
Defined.

Lemma df_final_nonneg {rng}
    (fp : contamination → option Z → rng → list Feature.row → nat → Z)
    (df : list Loaded.row) c g out r :
  process_sales_data fp df c g = Some out →
  r ∈ df_final out →
  (0 ≤ Final.Daily_Sales r)%Z.
Proof.
  intros (dmin & dmax & _ & _ & _ & _ & Hout)%process_sales_data_inv
         [i Hi]%list_elem_of_lookup_1.
  set (filled := fill_gaps (row_of_date (add_daily_sales df)
                              <$> date_range dmin dmax)) in *.
  assert (Hv : corrected_daily (anomalies fp c g filled)
                 (Final.Daily_Sales <$> filled) !! i
               = Some (Final.Daily_Sales r)).
  { by rewrite <-correct_Daily_Sales, <-Hout, list_lookup_fmap, Hi. }
  assert (Hkept : ∀ x y, Final.Daily_Sales <$> filled !! x = Some y →
            default false (anomalies fp c g filled !! x) = false → (0 ≤ y)%Z).
  { intros x y Hx. destruct (filled !! x) as [rx|] eqn:Hrx; [|done].
    injection Hx as <-. rewrite (anomalies_lookup _ _ _ _ _ _ Hrx). simpl.
    intros [_ Hneg]%orb_false_iff. apply bool_decide_eq_false in Hneg. lia. }
  apply corrected_daily_hull in Hv
    as [->|(x0 & y0 & x1 & y1 & [Hy0 Hf0] & [Hy1 Hf1] & Hbetween)]; [done|].
  rewrite list_lookup_fmap in Hy0, Hy1.
  pose proof (Hkept _ _ Hy0 Hf0). pose proof (Hkept _ _ Hy1 Hf1). lia.
Qed.

(** X7.  The frame the program returns has no negative delta, whatever the
    forest answers: the count that line 86 prints as "Negatives remaining"
    is always 0. *)
Theorem output_has_no_negative_delta {rng}
    (fp : contamination → option Z → rng → list Feature.row → nat → Z)
    (df : list Loaded.row) c g out r :
  process_sales_data fp df c g = Some out →
  r ∈ df_final out →
  (0 ≤ Final.Daily_Sales r)%Z.
Proof. apply df_final_nonneg. Qed.

Lemma output_has_no_negative_delta_witness :
  ∃ out,
    process_sales_data all_inliers
      (load_data [obs 100 1; obs 110 2; obs 90 3; obs 200 7]) auto_mode ()
    = Some out ∧
    Final.Daily_Sales <$> df_final out = [0; 10; 19; 28; 28; 28; 28]%Z ∧
    (0 ≤ 19)%Z.
Proof.
  eexists. split; [reflexivity|]. split; [reflexivity|].
  apply (output_has_no_negative_delta all_inliers
           (load_data [obs 100 1; obs 110 2; obs 90 3; obs 200 7])
           auto_mode () _ (Final.Build_row 3 (Some 90%Z) 19 Assumed) eq_refl).
  vm_compute. right. right. left.
Defined.

(** X8.  A day that the returned frame notes [Delta] is the date of a line
    of the file other than the line labelled 0, is not flagged, and is
    returned exactly as the gap filler left it; so every day created by the
    calendar and every flagged day is noted [Assumed].  The delta of the
    day is at most 2^52 in magnitude, so that it passes the float64 column
    of lines 78-80 unchanged. *)
Theorem output_Delta_is_file_line_and_unflagged {rng}
    (fp : contamination → option Z → rng → list Feature.row → nat → Z)
    (df : list Loaded.row) c g filled out i r :
  gap_filled df = Some filled →
  process_sales_data fp df c g = Some out →
  df_final out !! i = Some r →
  Final.Notes r = Delta →
  (Z.abs (Final.Daily_Sales r) ≤ 2 ^ 52)%Z →
  (∃ l, l ∈ df ∧ Loaded.Date l = Final.Date r ∧ Loaded.index l ≠ 0) ∧
  anomalies fp c g filled !! i = Some false ∧
  filled !! i = Some r.
Proof.
  intros Hfilled (dmin & dmax & _ & _ & _ & Hfilled' & Hout)%process_sales_data_inv.
  rewrite Hfilled in Hfilled'. injection Hfilled' as ->.
  set (t := row_of_date (add_daily_sales df) <$> date_range dmin dmax) in *.
  rewrite Hout, correct_lookup.
  destruct (fill_gaps t !! i) as [rf|] eqn:Hrf; [|done]. simpl.
  intros [= <-] Hnote _.
  pose proof (anomalies_lookup fp c g _ _ _ Hrf) as Hfl.
  destruct (_ || _) eqn:Hflag in Hfl.
  { unfold corrected_row in Hnote. by rewrite Hfl in Hnote. }
  rewrite corrected_row_unflagged in Hnote |- * by (by rewrite Hfl).
  split_and!; [|done..].
  rewrite fill_gaps_lookup in Hrf.
  unfold t in Hrf.
  destruct (fill_loop_row_cases t i) as [Hi|[a Hi]]; unfold t in Hi;
    rewrite Hi, list_lookup_fmap in Hrf.
  - destruct (date_range dmin dmax !! i) as [d|]; [|done]. simpl in Hrf.
    injection Hrf as <-.
    destruct (row_of_date_cases (add_daily_sales df) d)
      as [(x & Hx & _ & Hrow)|[_ Hrow]]; rewrite Hrow in Hnote |- *; [|done].
    simpl in Hnote |- *.
    apply list_elem_of_lookup_1 in Hx as [n Hn].
    rewrite add_daily_sales_lookup in Hn.
    destruct (df !! n) as [l|] eqn:Hl; [|done]. simpl in Hn.
    injection Hn as <-. simpl in Hnote |- *.
    exists l. split_and!; [by eapply list_elem_of_lookup_2|done|].
    intros Hidx. by rewrite bool_decide_eq_true_2 in Hnote.
  - destruct (date_range dmin dmax !! i) as [d|]; [|done]. simpl in Hrf.
    by injection Hrf as <-.
Qed.

Lemma output_Delta_is_file_line_and_unflagged_witness :
  ∃ filled r,
    (∃ l, l ∈ load_data [obs 100 1; obs 110 2; obs 90 3; obs 200 7] ∧
          Loaded.Date l = Final.Date r ∧ Loaded.index l ≠ 0) ∧
    anomalies all_inliers auto_mode () filled !! 1 = Some false ∧
    filled !! 1 = Some r.
Proof.
  eexists _, _.
  eapply (output_Delta_is_file_line_and_unflagged all_inliers
            (load_data [obs 100 1; obs 110 2; obs 90 3; obs 200 7])
            auto_mode () _ _ 1 _).
  - vm_compute. reflexivity.
  - vm_compute. reflexivity.
  - reflexivity.
  - reflexivity.
  - simpl. lia.
Defined.

Lemma row_of_date_observed_elem (ds : list Df.row) (d : Z) :
  d ∈ Df.Date <$> ds → ∃ r, row_of_date ds d = observed_row r.
Proof.
  intros Hd. destruct (row_of_date_cases ds d)
    as [(r & _ & _ & Hrow)|[Hnot _]]; [by exists r|done].
Qed.

(** The first and the last row of the calendar are observed days. *)
Lemma calendar_ends_observed (ds : list Df.row) (dmin dmax : Z) :
  Series_min (Df.Date <$> ds) = Some dmin →
  Series_max (Df.Date <$> ds) = Some dmax →
  let t := row_of_date ds <$> date_range dmin dmax in
  0 < length t ∧
  is_Some (Total_Sales_at t 0) ∧
  is_Some (Total_Sales_at t (length t - 1)).
Proof.
  intros Hmin Hmax t.
  apply Series_min_spec in Hmin as [Hmin_in Hmin_le].
  apply Series_max_spec in Hmax as [Hmax_in Hmax_le].
  pose proof (Hmin_le _ Hmax_in) as Hle.
  assert (Hlen : length t = Z.to_nat (dmax - dmin + 1)).
  { unfold t. by rewrite length_fmap, date_range_length. }
  split_and!; [lia| |].
  - unfold Total_Sales_at, t.
    rewrite list_lookup_fmap, date_range_lookup_lt by lia. simpl.
    replace (dmin + Z.of_nat 0)%Z with dmin by lia.
    by destruct (row_of_date_observed_elem ds dmin) as [r ->].
  - unfold Total_Sales_at. rewrite Hlen. unfold t.
    rewrite list_lookup_fmap, date_range_lookup_lt by lia. simpl.
    replace (dmin + Z.of_nat (Z.to_nat (dmax - dmin + 1) - 1))%Z
      with dmax by lia.
    by destruct (row_of_date_observed_elem ds dmax) as [r ->].
Qed.

(** On a frame with observed ends and two rows or more, the gap filler
    notes the last row [Assumed]. *)
Lemma fill_gaps_last_row_Assumed t r :
  2 ≤ length t →
  is_Some (Total_Sales_at t 0) →
  is_Some (Total_Sales_at t (length t - 1)) →
  fill_gaps t !! (length t - 1) = Some r →
  Final.Notes r = Assumed.
Proof.
  intros Hlen [v0 Hv0] [ev Hev] Hr.
  destruct (scan_start t (length t - 2)) as [s|] eqn:Hs.
  2:{ apply scan_start_None with (m := 0) in Hs; [congruence|lia]. }
  apply scan_start_Some in Hs as (Hle & [sv Hsv] & Hgap).
  rewrite fill_gaps_lookup in Hr.
  rewrite (fill_loop_written t s (length t - 1) sv ev) in Hr.
  - destruct (t !! (length t - 1)); [|done]. by injection Hr as <-.
  - split_and!; [lia|done..|]. intros k Hk. apply Hgap. lia.
  - lia.
  - by right.
Qed.

(** X9.  When the returned frame has two days or more and its first and
    its last day both have a cumulative total, the last day is noted
    [Assumed], even if the day before it has a total too: the outer loop of
    the gap filler always fires on the last row, and the scan for the start
    anchor stops on row 0 at the latest. *)
Theorem output_last_day_noted_Assumed {rng}
    (fp : contamination → option Z → rng → list Feature.row → nat → Z)
    (df : list Loaded.row) c g out r0 r :
  process_sales_data fp df c g = Some out →
  2 ≤ length (df_final out) →
  head (df_final out) = Some r0 → is_Some (Final.Total_Sales r0) →
  last (df_final out) = Some r → is_Some (Final.Total_Sales r) →
  Final.Notes r = Assumed.
Proof.
  intros (dmin & dmax & _ & _ & _ & _ & Hout)%process_sales_data_inv.
  set (t := row_of_date (add_daily_sales df) <$> date_range dmin dmax) in *.
  set (flags := anomalies fp c g (fill_gaps t)) in *.
  rewrite Hout, last_lookup, correct_length, fill_gaps_length.
  intros Hlen Hhead Hfirst Hr Hlast.
  replace (pred (length t)) with (length t - 1) in Hr by lia.
  assert (Htotal : ∀ k x, correct (fill_gaps t) flags !! k = Some x →
            Total_Sales_at t k = Final.Total_Sales x).
  { intros k x Hx. unfold Total_Sales_at.
    pose proof (correct_key (fill_gaps t) flags k) as Hkey.
    rewrite fill_gaps_key, Hx in Hkey. simpl in Hkey.
    destruct (t !! k) as [y|]; [|done]. simpl in Hkey |- *.
    by injection Hkey as _ <-. }
  rewrite head_lookup in Hhead.
  destruct (fill_gaps t !! (length t - 1)) as [rf|] eqn:Hrf.
  - eapply correct_keeps_Assumed; [exact Hrf| |exact Hr].
    apply (fill_gaps_last_row_Assumed t); [lia| | |exact Hrf].
    + by rewrite (Htotal _ _ Hhead).
    + by rewrite (Htotal _ _ Hr).
  - by rewrite correct_lookup, Hrf in Hr.
Qed.

Lemma output_last_day_noted_Assumed_witness :
  ∃ out r,
    process_sales_data all_inliers
      (load_data [obs 100 1; obs 110 2; obs 125 3]) auto_mode () = Some out ∧
    last (df_final out) = Some r ∧
    Final.Total_Sales r = Some 125%Z ∧
    Final.Notes r = Assumed.
Proof.
  eexists _, _. split; [vm_compute; reflexivity|].
  split; [reflexivity|]. split; [reflexivity|].
  eapply (output_last_day_noted_Assumed all_inliers
            (load_data [obs 100 1; obs 110 2; obs 125 3]) auto_mode ()).
  - vm_compute. reflexivity.
  - simpl. lia.
  - reflexivity.
  - simpl. eauto.
  - reflexivity.
  - simpl. eauto.
Defined.

Lemma run_None_iff {rng}
    (fp : contamination → option Z → rng → list Feature.row → nat → Z)
    (raw : list Raw.row) c g :
  run fp raw c g = None ↔ raw = [].
Proof.
  split.
  - intros Hnone. destruct raw as [|line raw]; [done|]. exfalso.
    destruct (full_calendar_Some (add_daily_sales (load_data (line :: raw))))
      as (dmin & dmax & _ & _ & _ & Hcal).
    { by apply add_daily_sales_nonempty, load_data_nonempty. }
    { rewrite add_daily_sales_Date. apply load_data_NoDup. }
    unfold run, process_sales_data, gap_filled in Hnone.
    by rewrite Hcal in Hnone.
  - by intros ->.
Qed.

(** X10.  [run] raises only on a file without lines: [load_data] hands
    [process_sales_data] distinct dates, so [reindex] never refuses them, and
    only the empty frame has no first and last date. *)
Theorem run_raises_only_on_empty_file {rng}
    (fp : contamination → option Z → rng → list Feature.row → nat → Z)
    (raw : list Raw.row) c g :
  run fp raw c g = None ↔ raw = [].
Proof. apply run_None_iff. Qed.

Lemma load_data_first_line (raw : list Raw.row) (first : Raw.row) :
  head raw = Some first →
  {| Loaded.index := 0;
     Loaded.Total_Sales := Raw.Total_Sales first;
     Loaded.Date := Raw.Date first |} ∈ load_data raw.
Proof.
  destruct raw as [|x raw]; [done|]. intros [= ->].
  rewrite load_data_Permutation. unfold drop_duplicates, read_csv.
  rewrite imap_cons. simpl. by left.
Qed.

(** X11.  A file whose lines all carry one date gives a frame of one day:
    the date, the total of the first line, delta 0 and the note [Assumed],
    whatever the forest answers. *)
Theorem single_date_file_gives_one_day {rng}
    (fp : contamination → option Z → rng → list Feature.row → nat → Z)
    (raw : list Raw.row) (first : Raw.row) c g :
  head raw = Some first →
  (∀ line, line ∈ raw → Raw.Date line = Raw.Date first) →
  ∃ out,
    run fp raw c g = Some out ∧
    df_final out = [ {| Final.Date := Raw.Date first;
                        Final.Total_Sales := Some (Raw.Total_Sales first);
                        Final.Daily_Sales := 0;
                        Final.Notes := Assumed |} ].
Proof.
  intros Hfirst Hsame.
  assert (Hdates : ∀ l, l ∈ load_data raw → Loaded.Date l = Raw.Date first).
  { intros l Hl. assert (Hd : Loaded.Date l ∈ Raw.Date <$> raw).
    { apply load_data_Date_elem. by apply list_elem_of_fmap_2. }
    apply list_elem_of_fmap in Hd as (line & -> & Hline). by apply Hsame. }
  assert (Hload : load_data raw
                  = [ {| Loaded.index := 0;
                         Loaded.Total_Sales := Raw.Total_Sales first;
                         Loaded.Date := Raw.Date first |} ]).
  { pose proof (load_data_first_line raw first Hfirst) as Hin.
    pose proof (load_data_NoDup raw) as Hnd.
    destruct (load_data raw) as [|x [|y rest]].
    - by apply elem_of_nil in Hin.
    - by apply list_elem_of_singleton in Hin as <-.
    - exfalso. rewrite !fmap_cons in Hnd.
      apply NoDup_cons in Hnd as [Hx _]. apply Hx.
      rewrite (Hdates x) by (by left).
      rewrite <-(Hdates y) by (right; by left). by left. }
  assert (Hfilled : gap_filled (load_data raw)
                    = Some [ {| Final.Date := Raw.Date first;
                                Final.Total_Sales := Some (Raw.Total_Sales first);
                                Final.Daily_Sales := 0;
                                Final.Notes := Assumed |} ]).
  { rewrite Hload. unfold gap_filled, full_calendar, reindex. simpl.
    unfold date_range.
    replace (Raw.Date first - Raw.Date first + 1)%Z with 1%Z by lia.
    simpl. unfold row_of_date. simpl.
    rewrite bool_decide_eq_true_2 by lia.
    by replace (Raw.Date first + 0)%Z with (Raw.Date first) by lia. }
  unfold run, process_sales_data. rewrite Hfilled.
  eexists. split; [reflexivity|]. cbn [df_final].
  by destruct (anomalies fp c g _) as [|[] flags].
Qed.

Lemma single_date_file_gives_one_day_witness :
  ∃ out,
    run all_inliers [obs 100 5; obs 120 5; obs 90 5] auto_mode () = Some out ∧
    df_final out = [Final.Build_row 5 (Some 100%Z) 0 Assumed].
Proof.
  apply (single_date_file_gives_one_day all_inliers
           [obs 100 5; obs 120 5; obs 90 5] (obs 100 5) auto_mode () eq_refl).
  intros line Hline.
  repeat (apply elem_of_cons in Hline as [->|Hline]); try reflexivity.
  by apply elem_of_nil in Hline.
Defined.

(** ** The gap filler on a frame that starts with days without total *)

(** X12.  Rows without cumulative total before the first row that has one
    have no anchor before them: [start_idx] falls back to 0, row 0 has no
    total, and the gap filler writes nothing on them.  Each of these rows
    leaves it with its own delta and its own note, 0 and [Assumed] only
    where it had none. *)
Theorem leading_days_without_total_untouched t k :
  (∀ i, i < k → Total_Sales_at t i = None) →
  ∀ i r, i < k → t !! i = Some r →
    fill_gaps t !! i =
    Some {| Final.Date := Full.Date r;
            Final.Total_Sales := None;
            Final.Daily_Sales := default 0%Z (Full.Daily_Sales r);
            Final.Notes := default Assumed (Full.Notes r) |}.
Proof.
  intros Hlead i r Hi Hr.
  rewrite fill_gaps_lookup, fill_loop_frame, Hr.
  - simpl. unfold finalize. f_equal. f_equal.
    pose proof (Hlead i Hi) as Hnone.
    unfold Total_Sales_at in Hnone. by rewrite Hr in Hnone.
  - intros s e sv ev (Hlt & Hs & He & Hgap) Hin _.
    rewrite Hlead in Hs by lia. done.
Qed.

(** The frame that lines 24-31 build for the lines [(empty, 1/1)],
    [(100, 1/3)] and [(120, 1/4)]: 1/1 keeps the delta 0 and the note of
    line 26, the calendar day 1/2 gets 0 and [Assumed]. *)
Lemma leading_days_without_total_untouched_witness :
  fill_gaps [Full.Build_row 1 None (Some 0%Z) (Some Assumed);
             nan_row 2;
             Full.Build_row 3 (Some 100%Z) (Some 0%Z) (Some Delta);
             Full.Build_row 4 (Some 120%Z) (Some 20%Z) (Some Delta)] !! 1 =
  Some {| Final.Date := 2; Final.Total_Sales := None;
          Final.Daily_Sales := 0; Final.Notes := Assumed |}.
Proof.
  refine (leading_days_without_total_untouched
            [Full.Build_row 1 None (Some 0%Z) (Some Assumed);
             nan_row 2;
             Full.Build_row 3 (Some 100%Z) (Some 0%Z) (Some Delta);
             Full.Build_row 4 (Some 120%Z) (Some 20%Z) (Some Delta)] 2 _ 1
            (nan_row 2) _ _); [|lia|reflexivity].
  intros i Hi. by assert (i = 0 ∨ i = 1) as [->| ->] by lia.
Defined.

(** ** The printed counts *)

Lemma Series_sum_cons (b : bool) (mask : list bool) :
  Series_sum (b :: mask) = (if b then 1 else 0) + Series_sum mask.
Proof.
  unfold Series_sum. rewrite filter_cons. destruct b.
  - by rewrite decide_True.
  - by rewrite decide_False.
Qed.

Lemma Series_sum_orb (a b : list bool) :
  length a = length b →
  Series_sum a ≤ Series_sum (zip_with orb a b) ∧
  Series_sum b ≤ Series_sum (zip_with orb a b) ∧
  Series_sum (zip_with orb a b) ≤ Series_sum a + Series_sum b.
Proof.
  revert b. induction a as [|x a IH]; intros [|y b] Hlen; try done.
  simpl. rewrite !Series_sum_cons.
  destruct (IH b) as (Ha & Hb & Hab); [by injection Hlen|].
  destruct x, y; simpl; lia.
Qed.

Lemma Series_sum_zero (mask : list bool) :
  (∀ b, b ∈ mask → b = false) → Series_sum mask = 0.
Proof.
  induction mask as [|b mask IH]; intros Hall; [done|].
  rewrite Series_sum_cons, (Hall b) by (by left). simpl.
  apply IH. intros b' Hb'. apply Hall. by right.
Qed.

(** X13.  The four counts of lines 83-86 fit together: no negative delta
    remains, each of the two kinds of anomaly is at most the total, and the
    total is at most their sum. *)
Theorem printed_counts_consistent {rng}
    (fp : contamination → option Z → rng → list Feature.row → nat → Z)
    (df : list Loaded.row) c g p :
  printed_counts fp df c g = Some p →
  Negatives_remaining p = 0 ∧
  Isolation_Forest_anomalies p ≤ Total_anomalies_corrected p ∧
  Negative_anomalies p ≤ Total_anomalies_corrected p ∧
  Total_anomalies_corrected p
  ≤ Isolation_Forest_anomalies p + Negative_anomalies p.
Proof.
  unfold printed_counts.
  destruct (gap_filled df) as [filled|] eqn:Hfilled; [|done]. simpl.
  intros [= <-]. simpl.
  destruct (process_sales_data fp df c g) as [out|] eqn:Hout.
  2:{ unfold process_sales_data in Hout. by rewrite Hfilled in Hout. }
  assert (Hfinal : df_final out = correct filled (anomalies fp c g filled)).
  { unfold process_sales_data in Hout. rewrite Hfilled in Hout.
    by injection Hout as <-. }
  split.
  - apply Series_sum_zero. unfold negatives.
    intros b (r & -> & Hr)%list_elem_of_fmap.
    apply bool_decide_eq_false. rewrite <-Hfinal in Hr.
    pose proof (df_final_nonneg fp df c g out r Hout Hr). lia.
  - apply Series_sum_orb. unfold iso_anomalies, negatives, anomaly_scores.
    by rewrite !length_fmap, length_seq, features_length.
Qed.

Lemma printed_counts_consistent_witness :
  ∃ p,
    printed_counts spike_forest
      (load_data [obs 100 1; obs 110 2; obs 400 3; obs 390 4; obs 395 5])
      auto_mode 0 = Some p ∧
    Isolation_Forest_anomalies p = 1 ∧
    Negative_anomalies p = 1 ∧
    Total_anomalies_corrected p = 2 ∧
    Negatives_remaining p = 0.
Proof.
  eexists. split; [vm_compute; reflexivity|].
  split; [reflexivity|]. split; [reflexivity|]. split; [reflexivity|].
  eapply (printed_counts_consistent spike_forest
            (load_data [obs 100 1; obs 110 2; obs 400 3; obs 390 4; obs 395 5])
            auto_mode 0).
  vm_compute. reflexivity.
Defined.

(** ** load_data: the checks *)

(** X14.  [load_data] exits exactly when the header is not
    [["Total Sales", "Date"]], in that order, or when some date of the file
    does not parse; one such date anywhere stops the whole file. *)
Theorem load_data_or_exit_None_iff (to_datetime : string → option Z)
    (columns : list string) (cells : list (Z * string)) :
  load_data_or_exit to_datetime columns cells = None ↔
  columns ≠ ["Total Sales"; "Date"]%string ∨
  ∃ cell, cell ∈ cells ∧ to_datetime cell.2 = None.
Proof.
  unfold load_data_or_exit, parse_dates.
  case_decide as Hcols.
  - rewrite fmap_None, mapM_None, Exists_exists. split.
    + intros (cell & Hcell & Hnone). right. exists cell. split; [done|].
      by destruct (to_datetime cell.2).
    + intros [?|(cell & Hcell & Hnone)]; [done|].
      exists cell. split; [done|]. by rewrite Hnone.
  - split; [by left|done].
Qed.

(** When it does not exit, the frame is [load_data] of the parsed lines,
    which stand one for one for the cells. *)
Lemma load_data_or_exit_Some (to_datetime : string → option Z)
    (columns : list string) (cells : list (Z * string)) df :
  load_data_or_exit to_datetime columns cells = Some df →
  columns = ["Total Sales"; "Date"]%string ∧
  ∃ raw, parse_dates to_datetime cells = Some raw ∧
         length raw = length cells ∧ df = load_data raw.
Proof.
  unfold load_data_or_exit. case_decide as Hcols; [|done].
  destruct (parse_dates to_datetime cells) as [raw|] eqn:Hraw; [|done].
  simpl. intros [= <-]. split; [done|]. exists raw. split_and!; [done| |done].
  unfold parse_dates in Hraw. apply mapM_Some in Hraw.
  symmetry. by eapply Forall2_length.
Qed.

(** ** main *)

Section main_properties.
Context {rng : Type}.
Variable fp : contamination → option Z → rng → list Feature.row → nat → Z.
Variable to_datetime : string → option Z.
Variable strip_lower : string → string.
Variable float : string → option pyfloat.

Lemma read_contamination_range (answers : list string) c :
  read_contamination strip_lower float answers = Some c →
  c = auto_mode ∨
  ∃ q, c = fraction q ∧ (float_0_01 <= q)%Q ∧ (q <= float_0_5)%Q.
Proof.
  induction answers as [|answer answers IH]; simpl; [done|].
  case_decide; [intros [= <-]; by left|].
  destruct (float _) as [[q| | |]|]; try done.
  destruct (Qle_bool float_0_01 q && Qle_bool q float_0_5) eqn:Hrange; [|done].
  intros [= <-]. right. exists q.
  apply andb_true_iff in Hrange as [?%Qle_bool_iff ?%Qle_bool_iff]. done.
Qed.

(** X15.  Whatever is typed at the prompt, [main] only goes on with the
    contamination ["auto"] or with a float between the doubles 0.01 and 0.5,
    both included; infinities and NaN are refused. *)
Theorem main_contamination_in_range (file_exists : bool)
    (answers : list string) (columns : list string)
    (cells : list (Z * string)) (g : rng) out :
  main fp to_datetime strip_lower float file_exists answers columns cells g
  = saved out →
  ∃ c df,
    (c = auto_mode ∨
     ∃ q, c = fraction q ∧ (float_0_01 <= q)%Q ∧ (q <= float_0_5)%Q) ∧
    load_data_or_exit to_datetime columns cells = Some df ∧
    process_sales_data fp df c g = Some out.
Proof.
  unfold main. destruct file_exists; [|done].
  destruct (read_contamination _ _ answers) as [c|] eqn:Hc; [|done].
  destruct (load_data_or_exit _ _ _) as [df|]; [|done].
  destruct (process_sales_data _ _ _ _) as [out'|] eqn:Hout; [|done].
  intros [= <-]. exists c, df. split_and!; [|done..].
  by eapply read_contamination_range.
Qed.

(** X16.  Answers that the prompt refuses are skipped, and the first answer
    it accepts decides: what is typed after it is never read. *)
Theorem read_contamination_first_accepted (refused : list string)
    (answer : string) (rest : list string) c :
  (∀ ans : string, ans ∈ refused →
     read_contamination strip_lower float [ans] = None) →
  read_contamination strip_lower float [answer] = Some c →
  read_contamination strip_lower float (refused ++ answer :: rest) = Some c.
Proof.
  intros Hrefused Haccept.
  induction refused as [|ans refused IH]; simpl in *.
  - case_decide; [done|].
    destruct (float _) as [[q| | |]|]; try done.
    by destruct (Qle_bool float_0_01 q && Qle_bool q float_0_5).
  - pose proof (Hrefused ans ltac:(by left)) as Ha. simpl in Ha.
    case_decide; [done|].
    assert (IH' : read_contamination strip_lower float
                    (refused ++ answer :: rest) = Some c).
    { apply IH. intros ans' Ha'. apply Hrefused. by right. }
    revert Ha. destruct (float (strip_lower ans)) as [[q| | |]|]; try done.
    destruct (Qle_bool float_0_01 q && Qle_bool q float_0_5); [intros [=]|done].
Qed.

(** X17.  [main] ends in an exception that nothing catches exactly when the
    file exists, an answer was accepted, the header is right and the file
    has no line under it: the checks of [load_data] let the empty frame
    through, and [process_sales_data] raises on it. *)
Theorem main_uncaught_exception_iff (file_exists : bool)
    (answers : list string) (columns : list string)
    (cells : list (Z * string)) (g : rng) :
  main fp to_datetime strip_lower float file_exists answers columns cells g
  = uncaught_exception ↔
  file_exists = true ∧
  is_Some (read_contamination strip_lower float answers) ∧
  columns = ["Total Sales"; "Date"]%string ∧
  cells = [].
Proof.
  unfold main. split.
  - destruct file_exists; [|done].
    destruct (read_contamination _ _ answers) as [c|] eqn:Hc; [|done].
    destruct (load_data_or_exit _ _ _) as [df|] eqn:Hdf; [|done].
    destruct (process_sales_data _ _ _ _) as [out|] eqn:Hout; [done|].
    intros _. apply load_data_or_exit_Some in Hdf
      as (Hcols & raw & Hraw & Hlen & ->).
    apply (run_None_iff fp raw c g) in Hout. subst raw.
    split_and!; [done|by eexists|done|].
    by destruct cells.
  - intros (-> & [c Hc] & -> & ->). rewrite Hc. reflexivity.
Qed.
End main_properties.

Lemma main_contamination_in_range_witness :
  ∃ out c df,
    main all_inliers sample_to_datetime id sample_float true
      ["x"; "0.7"; "nan"; "0.1"; "auto"]%string
      ["Total Sales"; "Date"]%string
      [(110%Z, "01/02/2024"%string); (100%Z, "01/01/2024"%string)] ()
    = saved out ∧
    (c = auto_mode ∨
     ∃ q, c = fraction q ∧ (float_0_01 <= q)%Q ∧ (q <= float_0_5)%Q) ∧
    load_data_or_exit sample_to_datetime ["Total Sales"; "Date"]%string
      [(110%Z, "01/02/2024"%string); (100%Z, "01/01/2024"%string)] = Some df ∧
    process_sales_data all_inliers df c () = Some out.
Proof.
  destruct (main all_inliers sample_to_datetime id sample_float true
              ["x"; "0.7"; "nan"; "0.1"; "auto"]%string
              ["Total Sales"; "Date"]%string
              [(110%Z, "01/02/2024"%string); (100%Z, "01/01/2024"%string)] ())
    as [| | |out] eqn:Hmain; try (vm_compute in Hmain; discriminate).
  destruct (main_contamination_in_range all_inliers sample_to_datetime id
              sample_float _ _ _ _ _ out Hmain) as (c & df & Hc & Hdf & Hout).
  by exists out, c, df.
Defined.

Lemma read_contamination_first_accepted_witness :
  read_contamination id sample_float
    (["x"; "0.7"; "nan"]%string ++ "0.1"%string :: ["auto"%string])
  = Some (fraction (1 # 10)).
Proof.
  apply (read_contamination_first_accepted id sample_float
           ["x"; "0.7"; "nan"]%string "0.1"%string ["auto"%string]).
  - intros ans Ha.
    repeat (apply elem_of_cons in Ha as [->|Ha]); try reflexivity.
    by apply elem_of_nil in Ha.
  - reflexivity.
Defined.

(** ** original_anomalies *)

(** X18.  [original_anomalies] lists a date exactly when the loaded frame
    has a row for that date and the day is flagged; the delta listed beside
    it is the one of lines 24-26, before any gap was filled.  A flagged day
    that the calendar created is not listed. *)
Theorem original_anomalies_iff {rng}
    (fp : contamination → option Z → rng → list Feature.row → nat → Z)
    (df : list Loaded.row) c g filled out (d v : Z) :
  gap_filled df = Some filled →
  process_sales_data fp df c g = Some out →
  (d, v) ∈ original_anomalies out ↔
  (∃ r, r ∈ add_daily_sales df ∧ Df.Date r = d ∧ Df.Daily_Sales r = v) ∧
  (∃ i row, filled !! i = Some row ∧ Final.Date row = d ∧
            anomalies fp c g filled !! i = Some true).
Proof.
  intros Hfilled. unfold process_sales_data. rewrite Hfilled. simpl.
  intros [= <-]. simpl. unfold select_original_anomalies.
  rewrite list_elem_of_fmap.
  assert (Hdates : ∀ x,
    x ∈ omap (λ rf : Final.row * bool,
                if rf.2 then Some (Final.Date rf.1) else None)
             (zip filled (anomalies fp c g filled)) ↔
    ∃ i row, filled !! i = Some row ∧ Final.Date row = x ∧
             anomalies fp c g filled !! i = Some true).
  { intros x. rewrite list_elem_of_omap. split.
    - intros ([row flag] & Hin & Hsome). simpl in Hsome.
      destruct flag; [|done]. injection Hsome as <-.
      apply elem_of_lookup_zip_with in Hin as (i & row' & flag' & Heq & ? & ?).
      injection Heq as -> ->. by exists i, row'.
    - intros (i & row & Hrow & <- & Hflag). exists (row, true). split; [|done].
      apply elem_of_lookup_zip_with. by exists i, row, true. }
  split.
  - intros (r & [= -> ->] & [Hflagged Hr]%list_elem_of_filter).
    split; [by exists r|]. by apply Hdates.
  - intros [(r & Hr & <- & <-) Hflagged]. exists r. split; [done|].
    apply list_elem_of_filter. split; [|done]. by apply Hdates.
Qed.

Lemma original_anomalies_iff_witness :
  ∃ out,
    process_sales_data all_inliers
      (load_data [obs 100 1; obs 110 2; obs 90 3; obs 200 7]) auto_mode ()
    = Some out ∧
    (3%Z, (-20)%Z) ∈ original_anomalies out.
Proof.
  eexists. split; [vm_compute; reflexivity|].
  eapply (original_anomalies_iff all_inliers
            (load_data [obs 100 1; obs 110 2; obs 90 3; obs 200 7])
            auto_mode ()).
  - vm_compute. reflexivity.
  - vm_compute. reflexivity.
  - split.
    + exists (Df.Build_row 2 90 3 (-20) Delta). split; [|done].
      vm_compute. right. right. left.
    + exists 2, (Final.Build_row 3 (Some 90%Z) (-20) Delta). done.
Defined.

(** ** The features *)

Lemma window3 (col : list Z) j (x y z : Z) :
  col !! j = Some x → col !! S j = Some y → col !! S (S j) = Some z →
  drop j (take (S (S (S j))) col) = [x; y; z].
Proof.
  revert col. induction j as [|j IH]; intros col Hx Hy Hz.
  - destruct col as [|x' [|y' [|z' col]]]; try done.
    simpl in *. rewrite take_0. congruence.
  - destruct col as [|w col]; [done|]. simpl in *. by apply IH.
Qed.

Lemma features_lookup (rows : list Final.row) i r :
  rows !! i = Some r →
  features rows !! i
  = Some {| Feature.Daily_Sales := Final.Daily_Sales r;
            Feature.Lag1 :=
              match i with
              | 0 => 0%Z
              | S j => default 0%Z (Final.Daily_Sales <$> rows !! j)
              end;
            Feature.Rolling_Mean :=
              mean (drop (i - 2) (take (S i) (Final.Daily_Sales <$> rows))) |}.
Proof.
  intros Hr. pose proof (lookup_lt_Some _ _ _ Hr) as Hlen.
  unfold features, fillna, shift1, rolling_mean3.
  rewrite lookup_zip_with, list_lookup_fmap, Hr. simpl.
  erewrite (proj2 (lookup_zip_Some _ _ i _ _)); [simpl; reflexivity|].
  split.
  - rewrite list_lookup_fmap, lookup_take_lt by (by rewrite length_fmap).
    destruct i as [|j]; simpl; [done|].
    rewrite !list_lookup_fmap.
    destruct (rows !! j) as [p|] eqn:Hp; [done|].
    apply lookup_ge_None in Hp. lia.
  - by rewrite list_lookup_fmap, list_lookup_imap, list_lookup_fmap, Hr.
Qed.

(** X19.  The row of features of a day holds the day's delta, the delta of
    the day before, and the mean of the deltas of the day and of the two
    days before; the first day has lag 0 and its own delta as mean, the
    second day the mean of two deltas. *)
Theorem features_of_day (rows : list Final.row) :
  (∀ r0, rows !! 0 = Some r0 →
     features rows !! 0
     = Some {| Feature.Daily_Sales := Final.Daily_Sales r0;
               Feature.Lag1 := 0;
               Feature.Rolling_Mean := mean [Final.Daily_Sales r0] |}) ∧
  (∀ r0 r1, rows !! 0 = Some r0 → rows !! 1 = Some r1 →
     features rows !! 1
     = Some {| Feature.Daily_Sales := Final.Daily_Sales r1;
               Feature.Lag1 := Final.Daily_Sales r0;
               Feature.Rolling_Mean :=
                 mean [Final.Daily_Sales r0; Final.Daily_Sales r1] |}) ∧
  (∀ j r0 r1 r2,
     rows !! j = Some r0 → rows !! S j = Some r1 → rows !! S (S j) = Some r2 →
     features rows !! S (S j)
     = Some {| Feature.Daily_Sales := Final.Daily_Sales r2;
               Feature.Lag1 := Final.Daily_Sales r1;
               Feature.Rolling_Mean :=
                 mean [Final.Daily_Sales r0; Final.Daily_Sales r1;
                       Final.Daily_Sales r2] |}).
Proof.
  split_and!.
  - intros r0 H0. rewrite (features_lookup _ _ _ H0).
    destruct rows as [|x rows]; [done|]. simpl in H0. injection H0 as ->.
    simpl. by rewrite take_0.
  - intros r0 r1 H0 H1. rewrite (features_lookup _ _ _ H1), H0.
    destruct rows as [|x [|y rows]]; try done.
    simpl in H0, H1. injection H0 as ->. injection H1 as ->.
    simpl. by rewrite take_0.
  - intros j r0 r1 r2 H0 H1 H2. rewrite (features_lookup _ _ _ H2), H1. simpl.
    rewrite Nat.sub_0_r.
    rewrite (window3 _ j (Final.Daily_Sales r0) (Final.Daily_Sales r1)
               (Final.Daily_Sales r2)); [done|..];
      by rewrite list_lookup_fmap, ?H0, ?H1, ?H2.
Qed.

Lemma features_of_day_witness :
  features [Final.Build_row 1 (Some 100%Z) 0 Assumed;
            Final.Build_row 2 (Some 110%Z) 10 Delta;
            Final.Build_row 3 (Some 130%Z) 20 Delta;
            Final.Build_row 4 (Some 190%Z) 60 Assumed] !! 3
  = Some {| Feature.Daily_Sales := 60; Feature.Lag1 := 20;
            Feature.Rolling_Mean := mean [10; 20; 60]%Z |}.
Proof.
  pose proof (features_of_day
    [Final.Build_row 1 (Some 100%Z) 0 Assumed;
     Final.Build_row 2 (Some 110%Z) 10 Delta;
     Final.Build_row 3 (Some 130%Z) 20 Delta;
     Final.Build_row 4 (Some 190%Z) 60 Assumed]) as (_ & _ & Hgen).
  exact (Hgen 1 _ _ _ eq_refl eq_refl eq_refl).
Defined.

(** ** load_data on a file that is already in order *)

Lemma drop_duplicates_from_NoDup_id (seen : list Z) (df : list Loaded.row) :
  NoDup (Loaded.Date <$> df) →
  (∀ r, r ∈ df → Loaded.Date r ∉ seen) →
  drop_duplicates_from seen df = df.
Proof.
  revert seen. induction df as [|x df IH]; intros seen Hnd Hseen; [done|].
  rewrite fmap_cons in Hnd. apply NoDup_cons in Hnd as [Hx Hnd]. simpl.
  rewrite bool_decide_eq_false_2 by (apply Hseen; by left).
  f_equal. apply IH; [done|].
  intros r Hr [Heq|Hin]%elem_of_cons.
  - apply Hx. rewrite <-Heq. by apply list_elem_of_fmap_2.
  - apply (Hseen r); [by right|done].
Qed.

(** X20.  A file whose dates are strictly increasing is loaded as it is:
    nothing is dropped, nothing moves, and the label of a row is its
    position. *)
Theorem load_data_of_ordered_file (raw : list Raw.row) :
  (∀ i j li lj, i < j → raw !! i = Some li → raw !! j = Some lj →
                (Raw.Date li < Raw.Date lj)%Z) →
  load_data raw = read_csv raw.
Proof.
  intros Hord.
  assert (Hlt : ∀ i j ri rj, i < j →
            read_csv raw !! i = Some ri → read_csv raw !! j = Some rj →
            (Loaded.Date ri < Loaded.Date rj)%Z).
  { intros i j ri rj Hij [_ Hi]%read_csv_lookup [_ Hj]%read_csv_lookup.
    apply (Hord i j _ _ Hij Hi Hj). }
  assert (Hnd : NoDup (Loaded.Date <$> read_csv raw)).
  { apply NoDup_alt. intros i j d. rewrite !list_lookup_fmap.
    destruct (read_csv raw !! i) as [ri|] eqn:Hi; [|done].
    destruct (read_csv raw !! j) as [rj|] eqn:Hj; [|done].
    simpl. intros [= <-] [= Heq].
    destruct (Nat.lt_trichotomy i j) as [Hij|[->|Hji]]; [|done|].
    - pose proof (Hlt i j _ _ Hij Hi Hj). lia.
    - pose proof (Hlt j i _ _ Hji Hj Hi). lia. }
  assert (Hsorted : StronglySorted Date_le (read_csv raw)).
  { clear Hnd. induction (read_csv raw) as [|x l IH]; constructor.
    - apply IH. intros i j ri rj Hij Hi Hj.
      apply (Hlt (S i) (S j)); [lia|done..].
    - apply Forall_forall. intros y [j Hj]%list_elem_of_lookup_1.
      unfold Date_le. pose proof (Hlt 0 (S j) x y ltac:(lia) eq_refl Hj). lia. }
  unfold load_data, sort_values, drop_duplicates.
  rewrite drop_duplicates_from_NoDup_id;
    [|done|intros r _; apply not_elem_of_nil].
  apply (StronglySorted_unique_strong Date_le);
    [|apply StronglySorted_merge_sort; apply _|done
     |apply merge_sort_Permutation].
  intros x1 x2 Hx1 Hx2 H12 H21.
  rewrite merge_sort_Permutation in Hx1.
  eapply (NoDup_fmap_elem_inj Loaded.Date); [exact Hnd|done..|].
  unfold Date_le in *. lia.
Qed.

Lemma load_data_of_ordered_file_witness :
  load_data [obs 100 1; obs 130 3; obs 135 4]
  = [Loaded.Build_row 0 100 1; Loaded.Build_row 1 130 3;
     Loaded.Build_row 2 135 4].
Proof.
  rewrite load_data_of_ordered_file; [reflexivity|].
  intros [|[|[|i]]] [|[|[|j]]] li lj Hij; simpl;
    intros [= <-] [= <-]; simpl; lia.
Defined.
